(** * gant-log: a shallow embedding of [log.go] and its specification

    The package is a process-wide, leveled logger.  Its state lives in package
    variables ([instance], [once], [debugMode], [logLevel],
    [logRecordTemplate], [log]); its effects are taking a mutex, looking up the
    caller on the stack, writing to an [io.Writer], panicking and leaving the
    process.  The embedding threads an explicit [World] through a small
    state-and-outcome monad and records the observable effects as a list of
    [Event]s.

    What is not in [log.go] is kept apart:
    - the [colors] package of the repository and the Go library functions
      [fmt.Sprintf] and [time.Time.Format] are parameters (classes [Colors]
      and [GoLib]); module [Reference] gives executable instances;
    - [path/filepath.Base] (Unix) and the part of [text/template] that the two
      format strings of [getQLogger] use are written out as functions. *)

From Stdlib Require Import String Ascii ZArith List Bool Lia DecimalString.
Import ListNotations.
Local Open Scope string_scope.
Local Open Scope Z_scope.

(** ** Strings *)

Definition nl : string := String (ascii_of_nat 10) "".

Definition is_slash (c : ascii) : bool := Ascii.eqb c "/".

Fixpoint has_slash (s : string) : bool :=
  match s with
  | "" => false
  | String c r => is_slash c || has_slash r
  end.

Definition snoc (s : string) (c : ascii) : string := s ++ String c "".

(** Go prints an [int] in decimal. *)
Definition itoa (z : Z) : string := NilZero.string_of_int (Z.to_int z).

(** ** [path/filepath.Base] on Unix

    Empty path gives ["."]; trailing separators are dropped; the result is
    what follows the last separator; a path of separators only gives ["/"]. *)

Fixpoint strip_trailing (s : string) : string :=
  match s with
  | "" => ""
  | String c r =>
      let r' := strip_trailing r in
      if (r' =? "")%string && is_slash c then "" else String c r'
  end.

Fixpoint after_last_slash (acc s : string) : string :=
  match s with
  | "" => acc
  | String c r => if is_slash c then after_last_slash "" r
                  else after_last_slash (snoc acc c) r
  end.

Definition filepath_Base (path : string) : string :=
  if (path =? "")%string then "."
  else
    let p := after_last_slash "" (strip_trailing path) in
    if (p =? "")%string then "/" else p.

(** ** Errors, writers, events *)

Inductive error : Type :=
| errInvalidLogLevel                (* errors.New("logger: invalid log level") *)
| errNilPointer                     (* runtime error: nil pointer dereference *)
| errParse (msg : string)           (* template.Parse failed *)
| errExec (msg : string)            (* template.Execute could not evaluate *)
| errWrite.                         (* the io.Writer returned an error *)

(** An [io.Writer] is known by its identity.  [ColorWriter] is the only shape
    the model gives to a writer made by the [colors] package. *)
Inductive Writer : Type :=
| os_Stdout
| os_Stderr
| Sink (id : nat)
| ColorWriter (w : Writer).

(** A pointer to a [QLogger]. *)
Inductive ptr : Type :=
| nil_ptr
| Addr (a : nat).

(** A stack frame as [runtime.Caller] reports it: file and line. *)
Definition Frame : Type := (string * Z)%type.

(** [EvWrite w p r]: [Write(p)] was called on [w]; [r = None] when it accepted
    all of [p], [r = Some n] when it returned an error after [n] bytes. *)
Inductive Event : Type :=
| EvLock (a : nat)
| EvUnlock (a : nat)
| EvCaller (skip : nat)
| EvWrite (w : Writer) (p : string) (r : option nat).

(** ** Parameters: the [colors] package and the Go library *)

Class Colors : Type := {
  CyanBold : string -> string;
  GreenBold : string -> string;
  YellowBold : string -> string;
  RedBold : string -> string;
  MagentaBold : string -> string;
  NewColorWriter : Writer -> Writer
}.

(** The operands of a [...interface{}] argument list. *)
Inductive value : Type :=
| VString (s : string)
| VInt (z : Z).

Record Time : Type := mkTime {
  year : Z; month : Z; day : Z; hour : Z; minute : Z; second : Z
}.

Class GoLib : Type := {
  fmt_Sprintf : string -> list value -> string;
  time_Format : Time -> string -> string
}.

(** ** Data of the package *)

Definition levelDebug : Z := 0.
Definition levelInfo : Z := 1.
Definition levelWarn : Z := 2.
Definition levelError : Z := 3.
Definition levelFatal : Z := 4.

(** [mu] is [true] while the mutex is held. *)
Record QLogger : Type := mkQLogger {
  mu : bool;
  output : Writer
}.

Record LogRecord : Type := mkLogRecord {
  ID : string;
  Level : string;
  Message : string;
  Filename : string;
  LineNo : Z
}.

(** ** The fragment of [text/template] the package uses

    A template is text interleaved with actions [{{...}}].  An action is a
    field of the data ([{{.Name}}]) or a call of a registered function with
    string literals as arguments ([{{Now "layout"}}], [{{EndLine}}]).
    Pipelines, variables, control actions, trim markers and escapes inside
    string literals are outside the fragment. *)

Inductive Node : Type :=
| TextNode (text : string)
| FieldNode (name : string)
| CallNode (fn : string) (args : list string).

(** The Go functions a [FuncMap] of this package can hold. *)
Inductive GoFunc : Type :=
| FnNow
| FnEndLine.

Definition FuncMap : Type := list (string * GoFunc).

Record Template : Type := mkTemplate {
  tname : string;
  tfuncs : FuncMap;
  tree : list Node
}.

Inductive Try (A : Type) : Type :=
| Ret (a : A)
| Throw (e : error).
Arguments Ret {A} a.
Arguments Throw {A} e.

Definition try_bind {A B} (m : Try A) (f : A -> Try B) : Try B :=
  match m with
  | Ret a => f a
  | Throw e => Throw e
  end.

Inductive Item : Type :=
| IText (s : string)
| IAction (body : string).

Definition cons_text (acc : string) (k : Try (list Item)) : Try (list Item) :=
  if (acc =? "")%string then k
  else try_bind k (fun l => Ret (IText acc :: l)).

(** Cut a template text at [{{] and [}}]. *)
Fixpoint lex (inAction : bool) (acc s : string) : Try (list Item) :=
  match s with
  | "" => if inAction then Throw (errParse "unclosed action")
          else cons_text acc (Ret [])
  | String c r =>
      match r with
      | String c2 r2 =>
          if negb inAction && Ascii.eqb c "{" && Ascii.eqb c2 "{" then
            cons_text acc (lex true "" r2)
          else if inAction && Ascii.eqb c "}" && Ascii.eqb c2 "}" then
            try_bind (lex false "" r2) (fun l => Ret (IAction acc :: l))
          else lex inAction (snoc acc c) r
      | "" => lex inAction (snoc acc c) r
      end
  end.

Inductive Token : Type :=
| TField (name : string)
| TIdent (name : string)
| TString (s : string).

Inductive TokMode : Type :=
| Between
| InWord
| InString.

Definition word (acc : string) : Token :=
  match acc with
  | String "." name => TField name
  | _ => TIdent acc
  end.

Definition dquote : ascii := ascii_of_nat 34.

(** Cut the body of an action into words and quoted strings. *)
Fixpoint tokens (mode : TokMode) (acc s : string) : Try (list Token) :=
  match s with
  | "" =>
      match mode with
      | Between => Ret []
      | InWord => Ret [word acc]
      | InString => Throw (errParse "unterminated quoted string")
      end
  | String c r =>
      match mode with
      | Between =>
          if Ascii.eqb c " " then tokens Between "" r
          else if Ascii.eqb c dquote then tokens InString "" r
          else tokens InWord (String c "") r
      | InWord =>
          if Ascii.eqb c " " then
            try_bind (tokens Between "" r) (fun l => Ret (word acc :: l))
          else if Ascii.eqb c dquote then
            Throw (errParse "unexpected quote in operand")
          else tokens InWord (snoc acc c) r
      | InString =>
          if Ascii.eqb c dquote then
            try_bind (tokens Between "" r) (fun l => Ret (TString acc :: l))
          else tokens InString (snoc acc c) r
      end
  end.

Fixpoint lookup_func (funcs : FuncMap) (name : string) : option GoFunc :=
  match funcs with
  | [] => None
  | (n, f) :: rest => if (n =? name)%string then Some f
                      else lookup_func rest name
  end.

Fixpoint string_args (l : list Token) : Try (list string) :=
  match l with
  | [] => Ret []
  | TString s :: rest =>
      try_bind (string_args rest) (fun a => Ret (s :: a))
  | _ :: _ => Throw (errParse "operand outside the fragment")
  end.

Definition parse_action (funcs : FuncMap) (body : string) : Try Node :=
  try_bind (tokens Between "" body) (fun toks =>
    match toks with
    | [] => Throw (errParse "missing value for command")
    | [TField name] => Ret (FieldNode name)
    | TIdent fn :: args =>
        match lookup_func funcs fn with
        | None => Throw (errParse "function not defined")
        | Some _ =>
            try_bind (string_args args) (fun a => Ret (CallNode fn a))
        end
    | _ => Throw (errParse "action outside the fragment")
    end).

Fixpoint parse_items (funcs : FuncMap) (l : list Item) : Try (list Node) :=
  match l with
  | [] => Ret []
  | IText s :: rest =>
      try_bind (parse_items funcs rest) (fun ns => Ret (TextNode s :: ns))
  | IAction b :: rest =>
      try_bind (parse_action funcs b) (fun n =>
        try_bind (parse_items funcs rest) (fun ns => Ret (n :: ns)))
  end.

(** [template.New(name).Funcs(funcs).Parse(text)] *)
Definition template_Parse (name : string) (funcs : FuncMap) (text : string)
  : Try Template :=
  try_bind (lex false "" text) (fun items =>
    try_bind (parse_items funcs items) (fun ns =>
      Ret (mkTemplate name funcs ns))).

(** ** The world *)

Record World : Type := mkWorld {
  (* package variables of log.go *)
  sequenceNo : Z;
  instance : ptr;
  once : bool;                                  (* sync.Once: already done *)
  debugMode : bool;
  logLevel : Z;
  logRecordTemplate : option Template;          (* None: nil *)
  debugLogRecordTemplate : option Template;
  log : ptr;
  (* the rest of the process *)
  heap : list QLogger;                          (* allocated QLoggers *)
  clock : Time;                                 (* what time.Now() returns *)
  faults : list (option nat);                   (* results of coming Writes *)
  events : list Event                           (* effects so far, oldest first *)
}.

Definition set_instance (p : ptr) (w : World) : World :=
  mkWorld (sequenceNo w) p (once w) (debugMode w) (logLevel w)
          (logRecordTemplate w) (debugLogRecordTemplate w) (log w)
          (heap w) (clock w) (faults w) (events w).

Definition set_once (b : bool) (w : World) : World :=
  mkWorld (sequenceNo w) (instance w) b (debugMode w) (logLevel w)
          (logRecordTemplate w) (debugLogRecordTemplate w) (log w)
          (heap w) (clock w) (faults w) (events w).

Definition set_logRecordTemplate (t : option Template) (w : World) : World :=
  mkWorld (sequenceNo w) (instance w) (once w) (debugMode w) (logLevel w)
          t (debugLogRecordTemplate w) (log w)
          (heap w) (clock w) (faults w) (events w).

Definition set_log (p : ptr) (w : World) : World :=
  mkWorld (sequenceNo w) (instance w) (once w) (debugMode w) (logLevel w)
          (logRecordTemplate w) (debugLogRecordTemplate w) p
          (heap w) (clock w) (faults w) (events w).

Definition set_heap (h : list QLogger) (w : World) : World :=
  mkWorld (sequenceNo w) (instance w) (once w) (debugMode w) (logLevel w)
          (logRecordTemplate w) (debugLogRecordTemplate w) (log w)
          h (clock w) (faults w) (events w).

Definition set_clock (t : Time) (w : World) : World :=
  mkWorld (sequenceNo w) (instance w) (once w) (debugMode w) (logLevel w)
          (logRecordTemplate w) (debugLogRecordTemplate w) (log w)
          (heap w) t (faults w) (events w).

Definition set_faults (f : list (option nat)) (w : World) : World :=
  mkWorld (sequenceNo w) (instance w) (once w) (debugMode w) (logLevel w)
          (logRecordTemplate w) (debugLogRecordTemplate w) (log w)
          (heap w) (clock w) f (events w).

(** No code of the package assigns [logLevel]; this setter only builds
    worlds to state and to try what a threshold would do. *)
Definition set_logLevel (t : Z) (w : World) : World :=
  mkWorld (sequenceNo w) (instance w) (once w) (debugMode w) t
          (logRecordTemplate w) (debugLogRecordTemplate w) (log w)
          (heap w) (clock w) (faults w) (events w).

Definition set_events (e : list Event) (w : World) : World :=
  mkWorld (sequenceNo w) (instance w) (once w) (debugMode w) (logLevel w)
          (logRecordTemplate w) (debugLogRecordTemplate w) (log w)
          (heap w) (clock w) (faults w) e.

Definition emit (e : Event) (w : World) : World :=
  set_events (events w ++ [e]) w.

Fixpoint update {A} (l : list A) (i : nat) (x : A) : list A :=
  match l, i with
  | [], _ => []
  | _ :: t, O => x :: t
  | h :: t, S j => h :: update t j x
  end.

(** ** Outcomes and the monad *)

Inductive Result (A : Type) : Type :=
| Normal (a : A) (w : World)        (* returned *)
| Panicked (e : error) (w : World)  (* a panic is unwinding the stack *)
| Exited (code : Z) (w : World)     (* os.Exit was called *)
| Blocked (w : World).              (* waiting for a mutex for ever *)
Arguments Normal {A} a w.
Arguments Panicked {A} e w.
Arguments Exited {A} code w.
Arguments Blocked {A} w.

Definition M (A : Type) : Type := World -> Result A.

Definition ret {A} (a : A) : M A := fun w => Normal a w.

Definition bind {A B} (m : M A) (f : A -> M B) : M B :=
  fun w =>
    match m w with
    | Normal a w' => f a w'
    | Panicked e w' => Panicked e w'
    | Exited c w' => Exited c w'
    | Blocked w' => Blocked w'
    end.

Notation "x <- m ;; k" := (bind m (fun x => k))
  (at level 61, m at next level, right associativity).
Notation "m ;;; k" := (bind m (fun _ => k))
  (at level 61, right associativity).

Definition panic {A} (e : error) : M A := fun w => Panicked e w.
Definition os_Exit {A} (code : Z) : M A := fun w => Exited code w.
Definition gets {A} (f : World -> A) : M A := fun w => Normal (f w) w.
Definition modify (f : World -> World) : M unit := fun w => Normal tt (f w).

Definition lift {A} (t : Try A) : M A :=
  match t with
  | Ret a => ret a
  | Throw e => panic e
  end.

(** [defer d] followed by [body]: [d] runs when [body] returns and when it
    panics, not when the process exits. *)
Definition with_defer {A} (d : M unit) (body : M A) : M A :=
  fun w =>
    match body w with
    | Normal a w' =>
        match d w' with
        | Normal _ w'' => Normal a w''
        | Panicked e w'' => Panicked e w''
        | Exited c w'' => Exited c w''
        | Blocked w'' => Blocked w''
        end
    | Panicked e w' =>
        match d w' with
        | Normal _ w'' => Panicked e w''
        | Panicked e' w'' => Panicked e' w''
        | Exited c w'' => Exited c w''
        | Blocked w'' => Blocked w''
        end
    | Exited c w' => Exited c w'
    | Blocked w' => Blocked w'
    end.

Definition world_of {A} (r : Result A) : World :=
  match r with
  | Normal _ w => w
  | Panicked _ w => w
  | Exited _ w => w
  | Blocked w => w
  end.

(** ** Primitives: pointers, the mutex, the stack, writers *)

Definition deref (l : ptr) : M (nat * QLogger) :=
  fun w =>
    match l with
    | nil_ptr => Panicked errNilPointer w
    | Addr a =>
        match nth_error (heap w) a with
        | Some q => Normal (a, q) w
        | None => Panicked errNilPointer w
        end
    end.

Definition alloc (q : QLogger) : M ptr :=
  fun w => Normal (Addr (length (heap w))) (set_heap (heap w ++ [q]) w).

Definition store (a : nat) (q : QLogger) : M unit :=
  modify (fun w => set_heap (update (heap w) a q) w).

(** [l.mu.Lock()] *)
Definition mu_Lock (l : ptr) : M unit :=
  aq <- deref l ;;
  let (a, q) := aq in
  if mu q then (fun w => Blocked w)
  else store a (mkQLogger true (output q)) ;;; modify (emit (EvLock a)).

(** [l.mu.Unlock()] *)
Definition mu_Unlock (l : ptr) : M unit :=
  aq <- deref l ;;
  let (a, q) := aq in
  store a (mkQLogger false (output q)) ;;; modify (emit (EvUnlock a)).

(** [runtime.Caller(skip)] on the stack [stk], innermost frame first. *)
Definition runtime_Caller (stk : list Frame) (skip : nat)
  : M (string * Z * bool) :=
  modify (emit (EvCaller skip)) ;;;
  ret (match nth_error stk skip with
       | Some (file, line) => (file, line, true)
       | None => ("", 0, false)
       end).

Definition take (n : nat) (s : string) : string := substring 0 n s.

(** The result of the next [Write]: the head of [faults], success when
    none is left. *)
Definition next_fault (flt : list (option nat))
  : option nat * list (option nat) :=
  match flt with
  | [] => (None, [])
  | r :: rest => (r, rest)
  end.

Definition write_error (r : option nat) : option error :=
  match r with
  | None => None
  | Some _ => Some errWrite
  end.

(** [w.Write(p)]; returns the error, if any. *)
Definition io_Write (out : Writer) (p : string) : M (option error) :=
  fun w =>
    let (r, rest) := next_fault (faults w) in
    Normal (write_error r) (emit (EvWrite out p r) (set_faults rest w)).

(** The bytes a write event put on its writer. *)
Definition accepted (e : Event) : list (Writer * string) :=
  match e with
  | EvWrite out p None => [(out, p)]
  | EvWrite out p (Some n) => [(out, take n p)]
  | _ => []
  end.

Fixpoint written (evs : list Event) : list (Writer * string) :=
  match evs with
  | [] => []
  | e :: rest => accepted e ++ written rest
  end.

Fixpoint text_of (l : list (Writer * string)) : string :=
  match l with
  | [] => ""
  | (_, s) :: rest => s ++ text_of rest
  end.

(** ** The package *)

Section Package.
Context {colors : Colors} {golib : GoLib}.

(** A double quote, to write the string literals that sit inside the format
    strings of [getQLogger]. *)
Definition q : string := String dquote "".

Definition debugLogFormat : string :=
  "[IIGService] {{Now " ++ q ++ "2006/01/02 15:04:05" ++ q
  ++ "}} {{.Level}} ▶ {{.ID}} {{.Filename}}:{{.LineNo}} {{.Message}}{{EndLine}}".

Definition relaseLogFormat : string :=
  "[IIGService] {{Now " ++ q ++ "2006/01/02 15:04:05" ++ q
  ++ "}} {{.Level}} ▶ {{.ID}} {{.Message}}{{EndLine}}".

(** [Now] returns the current local time in the specified layout. *)
Definition Now (layout : string) : M string :=
  t <- gets clock ;; ret (time_Format t layout).

(** [EndLine] returns a newline. *)
Definition EndLine : string := nl.

(** *** Executing a template on a [LogRecord] *)

Definition field (r : LogRecord) (name : string) : Try string :=
  if (name =? "ID")%string then Ret (ID r)
  else if (name =? "Level")%string then Ret (Level r)
  else if (name =? "Message")%string then Ret (Message r)
  else if (name =? "Filename")%string then Ret (Filename r)
  else if (name =? "LineNo")%string then Ret (itoa (LineNo r))
  else Throw (errExec "can't evaluate field").

Definition call_func (f : GoFunc) (args : list string) : M (Try string) :=
  match f, args with
  | FnNow, [layout] => s <- Now layout ;; ret (Ret s)
  | FnEndLine, [] => ret (Ret EndLine)
  | _, _ => ret (Throw (errExec "wrong number of args"))
  end.

Definition eval_node (funcs : FuncMap) (r : LogRecord) (n : Node)
  : M (Try string) :=
  match n with
  | TextNode t => ret (Ret t)
  | FieldNode name => ret (field r name)
  | CallNode fn args =>
      match lookup_func funcs fn with
      | Some f => call_func f args
      | None => ret (Throw (errExec "function not defined"))
      end
  end.

(** Each node is evaluated and written with a [Write] of its own; the first
    error stops the walk and is returned. *)
Fixpoint exec_nodes (funcs : FuncMap) (out : Writer) (r : LogRecord)
         (ns : list Node) : M (option error) :=
  match ns with
  | [] => ret None
  | n :: rest =>
      v <- eval_node funcs r n ;;
      match v with
      | Throw e => ret (Some e)
      | Ret s =>
          err <- io_Write out s ;;
          match err with
          | Some e => ret (Some e)
          | None => exec_nodes funcs out r rest
          end
      end
  end.

(** [t.Execute(out, r)] *)
Definition template_Execute (t : option Template) (out : Writer)
           (r : LogRecord) : M (option error) :=
  match t with
  | None => panic errNilPointer
  | Some t => exec_nodes (tfuncs t) out r (tree t)
  end.

(** *** [getQLogger], [SetOutput] *)

(** [once.Do(f)]: [f] runs if [once] is fresh; [once] is marked done when [f]
    returns or panics. *)
Definition once_Do (f : M unit) : M unit :=
  done <- gets once ;;
  if done then ret tt else with_defer (modify (set_once true)) f.

Definition parse_into_logRecordTemplate (name : string) (funcs : FuncMap)
           (text : string) : M unit :=
  match template_Parse name funcs text with
  | Ret t => modify (set_logRecordTemplate (Some t))
  | Throw err => modify (set_logRecordTemplate None) ;;; panic err
  end.

Definition getQLogger (w : Writer) : M ptr :=
  once_Do (
    let funcs := [("Now", FnNow); ("EndLine", FnEndLine)] in
    dm <- gets debugMode ;;
    (if dm then
       parse_into_logRecordTemplate "debugLogFormat" funcs debugLogFormat
     else
       parse_into_logRecordTemplate "relaseLogFormat" funcs relaseLogFormat) ;;;
    p <- alloc (mkQLogger false (NewColorWriter w)) ;;
    modify (set_instance p)) ;;;
  gets instance.

Definition SetOutput (l : ptr) (w : Writer) : M unit :=
  mu_Lock l ;;;
  with_defer (mu_Unlock l) (
    aq <- deref l ;;
    let (a, ql) := aq in
    store a (mkQLogger (mu ql) (NewColorWriter w))).

(** *** Level tags *)

Definition getLevelTag (level : Z) : Try string :=
  if level =? levelDebug then Ret "DEBUG"
  else if level =? levelInfo then Ret "INFO "
  else if level =? levelWarn then Ret "WARN "
  else if level =? levelError then Ret "ERROR"
  else if level =? levelFatal then Ret "FATAL"
  else Throw errInvalidLogLevel.

Definition getColorLevel (level : Z) : Try string :=
  if level =? levelDebug then
    try_bind (getLevelTag level) (fun t => Ret (CyanBold t))
  else if level =? levelInfo then
    try_bind (getLevelTag level) (fun t => Ret (GreenBold t))
  else if level =? levelWarn then
    try_bind (getLevelTag level) (fun t => Ret (YellowBold t))
  else if level =? levelError then
    try_bind (getLevelTag level) (fun t => Ret (RedBold t))
  else if level =? levelFatal then
    try_bind (getLevelTag level) (fun t => Ret (MagentaBold t))
  else Throw errInvalidLogLevel.

(** *** [mustLog] *)

(** Lines 152-157: the caller's file and line, or ["???"] and [0]. *)
Definition caller_location (stk : list Frame) (calldepth : nat)
  : M (string * Z) :=
  r <- runtime_Caller stk calldepth ;;
  let '(file, line, ok) := r in
  if negb ok then ret ("???", 0) else ret (file, line).

(** Lines 159-164: the record; [ID] is left at its zero value. *)
Definition mkRecord (level : Z) (message : string) (args : list value)
           (file : string) (line : Z) : Try LogRecord :=
  try_bind (getColorLevel level) (fun lv =>
    Ret {| ID := "";
           Level := lv;
           Message := fmt_Sprintf message args;
           Filename := filepath_Base file;
           LineNo := line |}).

(** [stk] is the stack when [runtime.Caller] is called: the frame of
    [mustLog] itself first, then its callers. *)
Definition mustLog (l : ptr) (level : Z) (calldepth : nat)
           (message : string) (args : list value) (stk : list Frame)
  : M unit :=
  threshold <- gets logLevel ;;
  if level <? threshold then ret tt
  else
    mu_Lock l ;;;
    with_defer (mu_Unlock l) (
      loc <- caller_location stk calldepth ;;
      let (file, line) := loc in
      record <- lift (mkRecord level message args file line) ;;
      tpl <- gets logRecordTemplate ;;
      aq <- deref l ;;
      err <- template_Execute tpl (output (snd aq)) record ;;
      match err with
      | Some e => panic e
      | None => ret tt
      end).

(** *** The level API

    [stk] is the stack of the caller of the entry point, innermost frame
    first.  The entry point and [mustLog] put their own frames on it. *)

Definition log_go : string := "github.com/kermitbu/gant-log/log.go".

Definition frames (line : Z) (stk : list Frame) : list Frame :=
  (log_go, 153) :: (log_go, line) :: stk.

Definition Debug (format : string) (v : list value) (stk : list Frame)
  : M unit :=
  dm <- gets debugMode ;;
  if dm then
    l <- gets log ;; mustLog l levelDebug 2 format v (frames 177 stk)
  else ret tt.

Definition Info (format : string) (v : list value) (stk : list Frame)
  : M unit :=
  l <- gets log ;; mustLog l levelInfo 2 format v (frames 183 stk).

Definition Warn (format : string) (v : list value) (stk : list Frame)
  : M unit :=
  l <- gets log ;; mustLog l levelWarn 2 format v (frames 188 stk).

Definition Error (format : string) (v : list value) (stk : list Frame)
  : M unit :=
  l <- gets log ;; mustLog l levelError 2 format v (frames 193 stk).

Definition Fatal (format : string) (v : list value) (stk : list Frame)
  : M unit :=
  l <- gets log ;;
  mustLog l levelFatal 2 format v (frames 198 stk) ;;;
  os_Exit (-1).

(** [io.WriteString(w, s)]; [Trace] drops its results. *)
Definition io_WriteString (out : Writer) (s : string) : M (option error) :=
  io_Write out s.

Definition Trace (url : string) (code : Z) (result : string) : M unit :=
  let output := NewColorWriter os_Stdout in
  io_WriteString output ("=================================" ++ nl) ;;;
  io_WriteString output
    (MagentaBold (fmt_Sprintf ("   URL: %+v" ++ nl) [VString url])) ;;;
  io_WriteString output
    (MagentaBold (fmt_Sprintf ("  CODE: %+v" ++ nl) [VInt code])) ;;;
  io_WriteString output
    (MagentaBold (fmt_Sprintf ("RESULT: %+v" ++ nl) [VString result])) ;;;
  ret tt.

(** *** Package initialisation

    [getenv] is the environment of the process; [clk] and [flt] are the clock
    and the coming write results at start. *)

Definition zero_world (getenv : string -> string) (clk : Time)
           (flt : list (option nat)) : World :=
  {| sequenceNo := 0;
     instance := nil_ptr;
     once := false;
     debugMode := (getenv "IIGSDEBUG" =? "1")%string;
     logLevel := levelDebug;
     logRecordTemplate := None;
     debugLogRecordTemplate := None;
     log := nil_ptr;
     heap := [];
     clock := clk;
     faults := flt;
     events := [] |}.

(** [var log = getQLogger(os.Stdout)] *)
Definition package_init (getenv : string -> string) (clk : Time)
           (flt : list (option nat)) : Result unit :=
  (p <- getQLogger os_Stdout ;; modify (set_log p))
    (zero_world getenv clk flt).

(** *** Calls into the package, and the worlds a process can be in *)

Inductive Call : Type :=
| CDebug (format : string) (v : list value) (stk : list Frame)
| CInfo (format : string) (v : list value) (stk : list Frame)
| CWarn (format : string) (v : list value) (stk : list Frame)
| CError (format : string) (v : list value) (stk : list Frame)
| CFatal (format : string) (v : list value) (stk : list Frame)
| CTrace (url : string) (code : Z) (result : string)
| CSetOutput (w : Writer)
| CgetQLogger (w : Writer)
| CNow (layout : string).

Definition run (c : Call) : M unit :=
  match c with
  | CDebug f v stk => Debug f v stk
  | CInfo f v stk => Info f v stk
  | CWarn f v stk => Warn f v stk
  | CError f v stk => Error f v stk
  | CFatal f v stk => Fatal f v stk
  | CTrace u c r => Trace u c r
  | CSetOutput w => l <- gets log ;; SetOutput l w
  | CgetQLogger w => getQLogger w ;;; ret tt
  | CNow layout => Now layout ;;; ret tt
  end.

(** A world is reachable when the process got there from package
    initialisation by calls that returned, while the clock moved and the
    writers changed their mind at will. *)
Inductive reachable (getenv : string -> string) : World -> Prop :=
| reach_init clk flt w :
    package_init getenv clk flt = Normal tt w -> reachable getenv w
| reach_call c w w' :
    reachable getenv w -> run c w = Normal tt w' -> reachable getenv w'
| reach_clock t w :
    reachable getenv w -> reachable getenv (set_clock t w)
| reach_faults f w :
    reachable getenv w -> reachable getenv (set_faults f w).

(** *** Vocabulary of the statements *)

(** The writes that were asked for, whatever their result. *)
Definition attempt (e : Event) : list (Writer * string) :=
  match e with
  | EvWrite out p _ => [(out, p)]
  | _ => []
  end.

Definition attempted (evs : list Event) : list (Writer * string) :=
  flat_map attempt evs.

(** What [runtime.Caller] finds, without the event. *)
Definition locate (stk : list Frame) (calldepth : nat) : string * Z :=
  match nth_error stk calldepth with
  | Some (file, line) => (file, line)
  | None => ("???", 0)
  end.

(** The text of one node, as a function of the record and the clock. *)
Definition call_pure (f : GoFunc) (args : list string) (clk : Time)
  : Try string :=
  match f, args with
  | FnNow, [layout] => Ret (time_Format clk layout)
  | FnEndLine, [] => Ret EndLine
  | _, _ => Throw (errExec "wrong number of args")
  end.

Definition chunk (funcs : FuncMap) (r : LogRecord) (clk : Time) (n : Node)
  : Try string :=
  match n with
  | TextNode t => Ret t
  | FieldNode name => field r name
  | CallNode fn args =>
      match lookup_func funcs fn with
      | Some f => call_pure f args clk
      | None => Throw (errExec "function not defined")
      end
  end.

(** The texts of all nodes, when all can be evaluated. *)
Fixpoint render (funcs : FuncMap) (r : LogRecord) (clk : Time)
         (ns : list Node) : Try (list string) :=
  match ns with
  | [] => Ret []
  | n :: rest =>
      try_bind (chunk funcs r clk n) (fun s =>
        try_bind (render funcs r clk rest) (fun l => Ret (s :: l)))
  end.

(** A run of [exec_nodes] told as a function of the coming write results:
    the write events, the results left, and the error returned. *)
Fixpoint exec_pure (funcs : FuncMap) (out : Writer) (r : LogRecord)
         (clk : Time) (ns : list Node) (flt : list (option nat))
  : list Event * list (option nat) * option error :=
  match ns with
  | [] => ([], flt, None)
  | n :: rest =>
      match chunk funcs r clk n with
      | Throw e => ([], flt, Some e)
      | Ret s =>
          match next_fault flt with
          | (Some k, flt') => ([EvWrite out s (Some k)], flt', Some errWrite)
          | (None, flt') =>
              let '(evs, f, e) := exec_pure funcs out r clk rest flt' in
              (EvWrite out s None :: evs, f, e)
          end
      end
  end.

Definition logFuncs : FuncMap := [("Now", FnNow); ("EndLine", FnEndLine)].

Definition layout : string := "2006/01/02 15:04:05".

(** The two templates of [getQLogger], parsed. *)
Definition verbose_template : Template :=
  mkTemplate "debugLogFormat" logFuncs
    [TextNode "[IIGService] "; CallNode "Now" [layout]; TextNode " ";
     FieldNode "Level"; TextNode " ▶ "; FieldNode "ID"; TextNode " ";
     FieldNode "Filename"; TextNode ":"; FieldNode "LineNo"; TextNode " ";
     FieldNode "Message"; CallNode "EndLine" []].

Definition concise_template : Template :=
  mkTemplate "relaseLogFormat" logFuncs
    [TextNode "[IIGService] "; CallNode "Now" [layout]; TextNode " ";
     FieldNode "Level"; TextNode " ▶ "; FieldNode "ID"; TextNode " ";
     FieldNode "Message"; CallNode "EndLine" []].

Definition selected (dm : bool) : Template :=
  if dm then verbose_template else concise_template.

(** The two layouts of a line, as the specification writes them. *)
Definition verbose_line (time lv id file : string) (line : Z) (msg : string)
  : string :=
  "[IIGService] " ++ time ++ " " ++ lv ++ " ▶ " ++ id ++ " "
  ++ file ++ ":" ++ itoa line ++ " " ++ msg ++ nl.

Definition concise_line (time lv id msg : string) : string :=
  "[IIGService] " ++ time ++ " " ++ lv ++ " ▶ " ++ id ++ " " ++ msg ++ nl.

(** The state of the package once initialised: one logger, its mutex free,
    the template chosen by [dm]. *)
Definition booted (dm : bool) (w : World) : Prop :=
  once w = true /\ instance w = Addr 0 /\ log w = Addr 0 /\
  logLevel w = levelDebug /\ debugMode w = dm /\
  logRecordTemplate w = Some (selected dm) /\
  exists out, heap w = [mkQLogger false out].

(** The world after a pass through the locked part of [mustLog] that wrote
    [evs] and left the write results [f]: nothing else has changed. *)
Definition logged (a : nat) (calldepth : nat) (evs : list Event)
           (f : list (option nat)) (w : World) : World :=
  set_events (events w ++ EvLock a :: EvCaller calldepth :: evs ++ [EvUnlock a])
             (set_faults f w).

(** The world right after package initialisation. *)
Definition initial (dm : bool) (out : Writer) (clk : Time)
           (flt : list (option nat)) : World :=
  {| sequenceNo := 0;
     instance := Addr 0;
     once := true;
     debugMode := dm;
     logLevel := levelDebug;
     logRecordTemplate := Some (selected dm);
     debugLogRecordTemplate := None;
     log := Addr 0;
     heap := [mkQLogger false out];
     clock := clk;
     faults := flt;
     events := [] |}.

(** Writes whose errors are dropped: all are attempted. *)
Fixpoint write_all (out : Writer) (ps : list string) (flt : list (option nat))
  : list Event * list (option nat) :=
  match ps with
  | [] => ([], flt)
  | p :: rest =>
      let (r, flt') := next_fault flt in
      let (evs, f) := write_all out rest flt' in
      (EvWrite out p r :: evs, f)
  end.

(** The four texts of [Trace]. *)
Definition trace_texts (url : string) (code : Z) (result : string)
  : list string :=
  [ "=================================" ++ nl;
    MagentaBold (fmt_Sprintf ("   URL: %+v" ++ nl) [VString url]);
    MagentaBold (fmt_Sprintf ("  CODE: %+v" ++ nl) [VInt code]);
    MagentaBold (fmt_Sprintf ("RESULT: %+v" ++ nl) [VString result]) ].

(** The line of a record under the template chosen by [dm]. *)
Definition line_of (dm : bool) (r : LogRecord) (clk : Time) : string :=
  if dm then
    verbose_line (time_Format clk layout) (Level r) (ID r) (Filename r)
                 (LineNo r) (Message r)
  else
    concise_line (time_Format clk layout) (Level r) (ID r) (Message r).

(** Successful writes of the texts [cs] on [out]. *)
Definition writes (out : Writer) (cs : list string) : list Event :=
  map (fun c => EvWrite out c None) cs.

(** The world in which [mustLog] calls [Execute]: lock taken, caller asked. *)
Definition at_Execute (a : nat) (out : Writer) (calldepth : nat) (w : World)
  : World :=
  emit (EvCaller calldepth)
    (emit (EvLock a) (set_heap (update (heap w) a (mkQLogger true out)) w)).

(** [keeps R m]: however [m] ends, the world it leaves is related by [R] to
    the one it started in. *)
Definition keeps (R : World -> World -> Prop) {A} (m : M A) : Prop :=
  forall w, R w (world_of (m w)).

(** Neither [logLevel] nor [debugMode] has been assigned. *)
Definition same_switches (w w' : World) : Prop :=
  logLevel w' = logLevel w /\ debugMode w' = debugMode w.

(** The five entry points of the level API. *)
Definition level_call (c : Call) : bool :=
  match c with
  | CDebug _ _ _ | CInfo _ _ _ | CWarn _ _ _ | CError _ _ _ | CFatal _ _ _ =>
      true
  | _ => false
  end.

Definition is_Debug (c : Call) : bool :=
  match c with
  | CDebug _ _ _ => true
  | _ => false
  end.

(** *** Vocabulary of the further statements *)

(** The record of a call of the level API made from the stack [stk], with
    [lv] as its decorated tag. *)
Definition record_of (lv format : string) (v : list value) (stk : list Frame)
  : LogRecord :=
  {| ID := "";
     Level := lv;
     Message := fmt_Sprintf format v;
     Filename := filepath_Base (fst (locate stk 0));
     LineNo := snd (locate stk 0) |}.

(** [m] returns after it took the mutex of the one logger, asked for the
    caller two frames up, wrote the text [line] piece by piece on the output
    of the logger and gave the mutex back; nothing else has changed. *)
Definition writes_line (m : M unit) (w : World) (line : string) : Prop :=
  exists out cs,
    heap w = [mkQLogger false out] /\
    m w = Normal tt (logged 0 2 (writes out cs) [] w) /\
    String.concat "" cs = line.

(** The record of a call of [Info], [Warn] or [Error]. *)
Definition call_record (c : Call) : option LogRecord :=
  match c with
  | CInfo f v stk => Some (record_of (GreenBold "INFO ") f v stk)
  | CWarn f v stk => Some (record_of (YellowBold "WARN ") f v stk)
  | CError f v stk => Some (record_of (RedBold "ERROR") f v stk)
  | _ => None
  end.

(** Calls made one after the other. *)
Fixpoint run_all (l : list Call) : M unit :=
  match l with
  | [] => ret tt
  | c :: rest => run c ;;; run_all rest
  end.

(** The lines of a list of calls, in order. *)
Fixpoint lines (dm : bool) (clk : Time) (l : list Call) : string :=
  match l with
  | [] => ""
  | c :: rest =>
      match call_record c with
      | Some r => line_of dm r clk ++ lines dm clk rest
      | None => lines dm clk rest
      end
  end.

(** The discipline of the mutex, read off a trace: [held] tells whether the
    mutex is held before the events; a lock is taken only when free, given
    back only when held, the caller is looked up only under the lock, and at
    the end the mutex is free. *)
Fixpoint bracketed (held : bool) (evs : list Event) : bool :=
  match evs with
  | [] => negb held
  | EvLock _ :: rest => negb held && bracketed true rest
  | EvUnlock _ :: rest => held && bracketed false rest
  | EvCaller _ :: rest => held && bracketed held rest
  | EvWrite _ _ _ :: rest => bracketed held rest
  end.

Definition is_write (e : Event) : bool :=
  match e with
  | EvWrite _ _ _ => true
  | _ => false
  end.

End Package.

(** ** Executable instances of the parameters *)

Module Reference.

(** The decoration that adds nothing: output with the color codes left
    aside. *)
Definition plain : Colors :=
  {| CyanBold := fun s => s;
     GreenBold := fun s => s;
     YellowBold := fun s => s;
     RedBold := fun s => s;
     MagentaBold := fun s => s;
     NewColorWriter := ColorWriter |}.

(** A decoration with ANSI escapes, to run the code with codes present. *)
Definition esc : string := String (ascii_of_nat 27) "".
Definition sgr (code s : string) : string :=
  esc ++ "[" ++ code ++ "m" ++ s ++ esc ++ "[0m".

Definition ansi : Colors :=
  {| CyanBold := sgr "1;36";
     GreenBold := sgr "1;32";
     YellowBold := sgr "1;33";
     RedBold := sgr "1;31";
     MagentaBold := sgr "1;35";
     NewColorWriter := ColorWriter |}.

Definition show (a : value) : string :=
  match a with
  | VString s => s
  | VInt z => itoa z
  end.

Definition bad_verb (c : ascii) (a : value) : string :=
  match a with
  | VString s => "%!" ++ String c ("(string=" ++ s ++ ")")
  | VInt z => "%!" ++ String c ("(int=" ++ itoa z ++ ")")
  end.

Definition verb (c : ascii) (a : value) : string :=
  match a with
  | VString _ => if Ascii.eqb c "d" then bad_verb c a else show a
  | VInt _ => if Ascii.eqb c "s" then bad_verb c a else show a
  end.

Definition is_verb (c : ascii) : bool :=
  Ascii.eqb c "s" || Ascii.eqb c "d" || Ascii.eqb c "v".

Definition typed (a : value) : string :=
  match a with
  | VString s => "string=" ++ s
  | VInt z => "int=" ++ itoa z
  end.

Fixpoint typed_list (args : list value) : string :=
  match args with
  | [] => ""
  | [a] => typed a
  | a :: rest => typed a ++ ", " ++ typed_list rest
  end.

(** Operands left when the format is used up are reported. *)
Definition finish (args : list value) : string :=
  match args with
  | [] => ""
  | _ :: _ => "%!(EXTRA " ++ typed_list args ++ ")"
  end.

(** [fmt.Sprintf] for the verbs [%s], [%d], [%v], [%+v] and [%%] on strings
    and ints; a verb without operand prints [%!v(MISSING)], a verb on the
    wrong type [%!v(type=value)].  Other verbs and flags are outside the
    fragment (they are copied). *)
Fixpoint sprintf (format : string) (args : list value) : string :=
  match format with
  | "" => finish args
  | String c r =>
      if Ascii.eqb c "%" then
        match r with
        | String c1 r1 =>
            if Ascii.eqb c1 "%" then String "%" (sprintf r1 args)
            else if is_verb c1 then
              match args with
              | a :: rest => verb c1 a ++ sprintf r1 rest
              | [] => "%!" ++ String c1 "(MISSING)" ++ sprintf r1 []
              end
            else
              match r1 with
              | String c2 r2 =>
                  if Ascii.eqb c1 "+" && Ascii.eqb c2 "v" then
                    match args with
                    | a :: rest => show a ++ sprintf r2 rest
                    | [] => "%!v(MISSING)" ++ sprintf r2 []
                    end
                  else String c (sprintf r args)
              | "" => String c (sprintf r args)
              end
        | "" => "%!(NOVERB)" ++ finish args
        end
      else String c (sprintf r args)
  end.

Definition digit (z : Z) : ascii := ascii_of_nat (48 + Z.to_nat (z mod 10)).

Definition pad2 (z : Z) : string :=
  String (digit (z / 10)) (String (digit z) "").

Definition pad4 (z : Z) : string :=
  String (digit (z / 1000)) (String (digit (z / 100)) (pad2 z)).

(** [Time.Format] for layouts made of the reference numbers [2006], [01],
    [02], [15], [04], [05] and separators.  The other reference elements of
    Go's layouts (names of months and days, unpadded numbers, zones, ...) are
    outside the fragment. *)
Fixpoint format (t : Time) (layout : string) : string :=
  match layout with
  | "" => ""
  | String c r =>
      match r with
      | String c1 r1 =>
          if Ascii.eqb c "0" && Ascii.eqb c1 "1" then pad2 (month t) ++ format t r1
          else if Ascii.eqb c "0" && Ascii.eqb c1 "2" then pad2 (day t) ++ format t r1
          else if Ascii.eqb c "1" && Ascii.eqb c1 "5" then pad2 (hour t) ++ format t r1
          else if Ascii.eqb c "0" && Ascii.eqb c1 "4" then pad2 (minute t) ++ format t r1
          else if Ascii.eqb c "0" && Ascii.eqb c1 "5" then pad2 (second t) ++ format t r1
          else
            match r1 with
            | String c2 (String c3 r3) =>
                if Ascii.eqb c "2" && Ascii.eqb c1 "0" && Ascii.eqb c2 "0"
                   && Ascii.eqb c3 "6"
                then pad4 (year t) ++ format t r3
                else String c (format t r)
            | _ => String c (format t r)
            end
      | "" => String c ""
      end
  end.

Definition go : GoLib :=
  {| fmt_Sprintf := sprintf;
     time_Format := format |}.

Definition no_env : string -> string := fun _ => "".
Definition debug_env : string -> string :=
  fun k => if (k =? "IIGSDEBUG")%string then "1" else "".

Definition t0 : Time := mkTime 2024 1 2 3 4 5.

(** The world after a start in concise mode, and after one in debug mode;
    [flt] is what the writers will answer. *)
Definition concise_world (flt : list (option nat)) : World :=
  initial false (ColorWriter os_Stdout) t0 flt.

Definition debug_world (flt : list (option nat)) : World :=
  initial true (ColorWriter os_Stdout) t0 flt.

End Reference.


(** * Facts *)

(** ** Strings *)

Lemma append_nil_r s : s ++ "" = s.
Proof. induction s as [|c r IH]; simpl; [reflexivity|now rewrite IH]. Qed.

Lemma append_assoc s1 s2 s3 : (s1 ++ s2) ++ s3 = s1 ++ (s2 ++ s3).
Proof. induction s1 as [|c r IH]; simpl; [reflexivity|now rewrite IH]. Qed.

(** ** Base names *)

Lemma strip_trailing_no_slash s :
  has_slash s = false -> strip_trailing s = s.
Proof.
  induction s as [|c r IH]; simpl; [reflexivity|].
  intros H. apply orb_false_iff in H as [Hc Hr].
  rewrite (IH Hr), Hc. now rewrite andb_false_r.
Qed.

Lemma strip_trailing_keeps pre s :
  s <> "" -> has_slash s = false ->
  strip_trailing (pre ++ s) = pre ++ s.
Proof.
  intros Hne Hs. induction pre as [|c r IH]; simpl.
  - now apply strip_trailing_no_slash.
  - rewrite IH.
    destruct (String.eqb_spec (r ++ s) "") as [E|_]; [|reflexivity].
    destruct r; simpl in E; [contradiction|discriminate].
Qed.

Lemma append_snoc acc c r : snoc acc c ++ r = acc ++ String c r.
Proof.
  unfold snoc. induction acc as [|a acc IH]; simpl; [reflexivity|].
  now rewrite IH.
Qed.

Lemma after_last_slash_no_slash s : forall acc,
  has_slash s = false -> after_last_slash acc s = acc ++ s.
Proof.
  induction s as [|c r IH]; intros acc H; simpl in *.
  - now rewrite append_nil_r.
  - apply orb_false_iff in H as [Hc Hr]. rewrite Hc.
    rewrite (IH _ Hr). apply append_snoc.
Qed.

Lemma after_last_slash_dir dir name : forall acc,
  has_slash name = false ->
  after_last_slash acc (dir ++ "/" ++ name) = name.
Proof.
  induction dir as [|c r IH]; intros acc H; simpl.
  - now rewrite after_last_slash_no_slash.
  - destruct (is_slash c); now rewrite IH.
Qed.

Lemma has_slash_after s : forall acc,
  has_slash acc = false -> has_slash (after_last_slash acc s) = false.
Proof.
  induction s as [|c r IH]; intros acc H; simpl; [assumption|].
  destruct (is_slash c) eqn:Hc; apply IH; [reflexivity|].
  unfold snoc. clear IH. induction acc as [|a acc IHa]; simpl in *.
  - now rewrite Hc.
  - apply orb_false_iff in H as [Ha Hacc]. now rewrite Ha, IHa.
Qed.

(** The base name of [dir/name] is [name]. *)
Lemma filepath_Base_dir dir name :
  name <> "" -> has_slash name = false ->
  filepath_Base (dir ++ "/" ++ name) = name.
Proof.
  intros Hne Hs. unfold filepath_Base.
  destruct (String.eqb_spec (dir ++ "/" ++ name) "") as [E|_].
  - destruct dir; discriminate.
  - replace (dir ++ "/" ++ name) with ((dir ++ "/") ++ name)
      by (now rewrite <- append_assoc).
    rewrite strip_trailing_keeps by assumption.
    rewrite append_assoc. rewrite after_last_slash_dir by assumption.
    destruct (String.eqb_spec name ""); [contradiction|reflexivity].
Qed.

(** A name without directory is its own base name. *)
Lemma filepath_Base_plain name :
  name <> "" -> has_slash name = false -> filepath_Base name = name.
Proof.
  intros Hne Hs. unfold filepath_Base.
  destruct (String.eqb_spec name ""); [contradiction|].
  rewrite strip_trailing_no_slash by assumption.
  rewrite after_last_slash_no_slash by assumption. simpl.
  destruct (String.eqb_spec name ""); [contradiction|reflexivity].
Qed.

(** A base name holds a separator only when it is the root. *)
Lemma filepath_Base_slash path :
  filepath_Base path = "/" \/ has_slash (filepath_Base path) = false.
Proof.
  unfold filepath_Base.
  destruct (path =? "")%string; [now right|].
  destruct (after_last_slash "" (strip_trailing path) =? "")%string;
    [now left|right].
  now apply has_slash_after.
Qed.

Section Facts.
Context {colors : Colors} {golib : GoLib}.

(** ** Lists, worlds *)

Lemma nth_error_update_eq {A} (l : list A) (i : nat) (x y : A) :
  nth_error l i = Some y -> nth_error (update l i x) i = Some x.
Proof.
  revert i; induction l as [|h t IH]; intros [|i] Hn; simpl in *;
    try discriminate; auto.
Qed.

Lemma update_update {A} (l : list A) (i : nat) (x y : A) :
  update (update l i x) i y = update l i y.
Proof.
  revert i; induction l as [|h t IH]; intros [|i]; simpl; auto.
  now rewrite IH.
Qed.

Lemma update_same {A} (l : list A) (i : nat) (x : A) :
  nth_error l i = Some x -> update l i x = l.
Proof.
  revert i; induction l as [|h t IH]; intros [|i] Hn; simpl in *;
    try discriminate; auto.
  - now inversion Hn.
  - now rewrite IH.
Qed.

(** Unfold the setters from the inside. *)
Ltac world_norm :=
  cbv [emit set_events set_faults set_heap set_clock set_log set_once
       set_instance set_logRecordTemplate
       sequenceNo instance once debugMode logLevel logRecordTemplate
       debugLogRecordTemplate log heap clock faults events].

Lemma world_eta (w : World) :
  set_events (events w) (set_faults (faults w) w) = w.
Proof. now destruct w. Qed.

(** ** Template runs *)

Lemma eval_node_chunk funcs r n w :
  eval_node funcs r n w = Normal (chunk funcs r (clock w) n) w.
Proof.
  destruct n as [t|name|fn args]; simpl; try reflexivity.
  destruct (lookup_func funcs fn) as [f|]; try reflexivity.
  destruct f; destruct args as [|a [|b args]]; reflexivity.
Qed.

Lemma exec_nodes_pure funcs out r ns : forall w,
  exec_nodes funcs out r ns w =
  let '(evs, f, e) := exec_pure funcs out r (clock w) ns (faults w) in
  Normal e (set_events (events w ++ evs) (set_faults f w)).
Proof.
  induction ns as [|n rest IH]; intros w; simpl.
  - unfold ret. rewrite app_nil_r. now rewrite world_eta.
  - unfold bind at 1. rewrite eval_node_chunk.
    destruct (chunk funcs r (clock w) n) as [s|e]; simpl.
    + unfold bind, io_Write.
      destruct (next_fault (faults w)) as [[k|] flt'] eqn:Hf; simpl.
      * reflexivity.
      * rewrite IH. simpl.
        destruct (exec_pure funcs out r (clock w) rest flt') as [[evs f] e].
        f_equal. unfold emit, set_events, set_faults; simpl.
        now rewrite <- app_assoc.
    + unfold ret. rewrite app_nil_r. now rewrite world_eta.
Qed.

(** ** Primitives *)

Lemma mu_Lock_eq w a out :
  nth_error (heap w) a = Some (mkQLogger false out) ->
  mu_Lock (Addr a) w =
  Normal tt (emit (EvLock a)
               (set_heap (update (heap w) a (mkQLogger true out)) w)).
Proof.
  intros Hq. unfold mu_Lock, bind, deref. now rewrite Hq.
Qed.

Lemma mu_Unlock_eq w a ql :
  nth_error (heap w) a = Some ql ->
  mu_Unlock (Addr a) w =
  Normal tt (emit (EvUnlock a)
               (set_heap (update (heap w) a (mkQLogger false (output ql))) w)).
Proof.
  intros Hq. unfold mu_Unlock, bind, deref. now rewrite Hq.
Qed.

Lemma caller_location_eq stk d w :
  caller_location stk d w = Normal (locate stk d) (emit (EvCaller d) w).
Proof.
  unfold caller_location, runtime_Caller, locate, bind, modify, ret.
  destruct (nth_error stk d) as [[file line]|]; reflexivity.
Qed.

(** ** [mustLog] in closed form

    With the mutex free and the level admitted, [mustLog] takes the lock,
    asks for the caller, builds the record, runs the template and gives the
    lock back; the result is decided by the record and the write results. *)

Lemma mustLog_eq w a ql level d msg args stk :
  nth_error (heap w) a = Some ql -> mu ql = false -> logLevel w <= level ->
  mustLog (Addr a) level d msg args stk w =
  match mkRecord level msg args (fst (locate stk d)) (snd (locate stk d)) with
  | Throw e => Panicked e (logged a d [] (faults w) w)
  | Ret r =>
      match logRecordTemplate w with
      | None => Panicked errNilPointer (logged a d [] (faults w) w)
      | Some tpl =>
          let '(evs, f, e) :=
            exec_pure (tfuncs tpl) (output ql) r (clock w) (tree tpl) (faults w) in
          match e with
          | None => Normal tt (logged a d evs f w)
          | Some e => Panicked e (logged a d evs f w)
          end
      end
  end.
Proof.
  intros Hq Hmu Hlv.
  unfold mustLog. unfold bind at 1. unfold gets at 1.
  destruct (Z.ltb_spec level (logLevel w)) as [Hlt|_]; [lia|].
  destruct ql as [m out]; simpl in Hmu; subst m.
  unfold bind at 1. rewrite (mu_Lock_eq _ _ _ Hq).
  set (w1 := emit (EvLock a) _).
  assert (Hq1 : forall e f, nth_error (heap (set_events e (set_faults f (emit (EvCaller d) w1)))) a
                = Some (mkQLogger true out)).
  { intros e f. simpl. eapply nth_error_update_eq; eauto. }
  assert (Hfin : forall evs f,
    mu_Unlock (Addr a) (set_events (events (emit (EvCaller d) w1) ++ evs)
                          (set_faults f (emit (EvCaller d) w1)))
    = Normal tt (logged a d evs f w)).
  { intros evs f. rewrite (mu_Unlock_eq _ _ _ (Hq1 _ _)). f_equal.
    destruct w; unfold logged, emit, set_events, set_faults, set_heap; simpl in *.
    rewrite update_update, (update_same _ _ _ Hq).
    f_equal. now rewrite <- !app_assoc. }
  assert (Hq0 : nth_error (update (heap w) a (mkQLogger true out)) a
                = Some (mkQLogger true out))
    by (eapply nth_error_update_eq; eauto).
  unfold with_defer, bind. rewrite caller_location_eq.
  destruct (locate stk d) as [file line]; simpl fst; simpl snd.
  destruct (mkRecord level msg args file line) as [r|e]; simpl.
  - unfold gets.
    change (logRecordTemplate (emit (EvCaller d) w1)) with (logRecordTemplate w).
    destruct (logRecordTemplate w) as [tpl|]; simpl.
    + unfold deref. simpl. rewrite Hq0. simpl.
      rewrite exec_nodes_pure.
      change (clock (emit (EvCaller d) w1)) with (clock w).
      change (faults (emit (EvCaller d) w1)) with (faults w).
      destruct (exec_pure (tfuncs tpl) out r (clock w) (tree tpl) (faults w))
        as [[evs f] [e|]]; simpl; unfold panic, ret; now rewrite Hfin.
    + unfold deref. simpl. rewrite Hq0. simpl.
      unfold panic.
      rewrite <- (world_eta (emit (EvCaller d) w1)).
      rewrite <- (app_nil_r (events (emit (EvCaller d) w1))) at 1.
      now rewrite Hfin.
  - unfold panic.
    rewrite <- (world_eta (emit (EvCaller d) w1)).
    rewrite <- (app_nil_r (events (emit (EvCaller d) w1))) at 1.
    now rewrite Hfin.
Qed.

Lemma logged_neq a d evs f w : logged a d evs f w <> w.
Proof.
  intros H. apply (f_equal (fun x => length (events x))) in H.
  unfold logged in H; simpl in H. rewrite length_app in H. simpl in H. lia.
Qed.

(** Past the threshold [mustLog] never comes back without a trace. *)
Lemma mustLog_not_silent l level d msg args stk w :
  logLevel w <= level ->
  mustLog l level d msg args stk w <> Normal tt w.
Proof.
  intros Hlv.
  destruct l as [|a].
  - unfold mustLog, bind, gets.
    destruct (Z.ltb_spec level (logLevel w)); [lia|]. discriminate.
  - destruct (nth_error (heap w) a) as [[[|] out]|] eqn:Hq.
    + unfold mustLog, bind, gets, mu_Lock, bind, deref.
      destruct (Z.ltb_spec level (logLevel w)); [lia|].
      rewrite Hq. discriminate.
    + rewrite (mustLog_eq _ _ _ _ _ _ _ _ Hq eq_refl Hlv).
      destruct (mkRecord _ _ _ _ _); [|discriminate].
      destruct (logRecordTemplate w); [|discriminate].
      destruct (exec_pure _ _ _ _ _ _) as [[evs f] [e|]]; [discriminate|].
      intros H; inversion H as [H1]. now apply logged_neq in H1.
    + unfold mustLog, bind, gets, mu_Lock, bind, deref.
      destruct (Z.ltb_spec level (logLevel w)); [lia|].
      rewrite Hq. discriminate.
Qed.

(** ** Initialisation *)

Lemma parse_debugLogFormat :
  template_Parse "debugLogFormat" logFuncs debugLogFormat = Ret verbose_template.
Proof. reflexivity. Qed.

Lemma parse_relaseLogFormat :
  template_Parse "relaseLogFormat" logFuncs relaseLogFormat = Ret concise_template.
Proof. reflexivity. Qed.

Lemma getQLogger_first getenv clk flt wr :
  getQLogger wr (zero_world getenv clk flt) =
  Normal (Addr 0)
    (set_log nil_ptr
       (initial (getenv "IIGSDEBUG" =? "1")%string (NewColorWriter wr) clk flt)).
Proof.
  unfold zero_world.
  destruct (getenv "IIGSDEBUG" =? "1")%string; reflexivity.
Qed.

Lemma getQLogger_again w wr :
  once w = true -> getQLogger wr w = Normal (instance w) w.
Proof.
  intros Ho. unfold getQLogger, once_Do, bind, gets. now rewrite Ho.
Qed.

Lemma package_init_eq getenv clk flt :
  package_init getenv clk flt =
  Normal tt (initial (getenv "IIGSDEBUG" =? "1")%string
               (NewColorWriter os_Stdout) clk flt).
Proof.
  unfold package_init, bind. now rewrite getQLogger_first.
Qed.

Lemma booted_initial dm out clk flt : booted dm (initial dm out clk flt).
Proof. unfold booted; simpl; repeat split; eauto. Qed.

Lemma booted_io dm e f w :
  booted dm w -> booted dm (set_events e (set_faults f w)).
Proof. unfold booted; simpl; tauto. Qed.

Lemma booted_clock dm t w : booted dm w -> booted dm (set_clock t w).
Proof. unfold booted; simpl; tauto. Qed.

(** ** [Trace] and [SetOutput] in closed form *)

Lemma write_4 out p1 p2 p3 p4 w :
  (io_Write out p1 ;;; io_Write out p2 ;;; io_Write out p3 ;;;
   io_Write out p4 ;;; ret tt) w =
  let (evs, f) := write_all out [p1; p2; p3; p4] (faults w) in
  Normal tt (set_events (events w ++ evs) (set_faults f w)).
Proof.
  unfold io_Write, bind, ret.
  destruct w as [sq ins on dm ll t1 t2 lg hp ck flt evs]. cbn.
  destruct (next_fault flt) as [r1 f1]. cbn.
  destruct (next_fault f1) as [r2 f2]. cbn.
  destruct (next_fault f2) as [r3 f3]. cbn.
  destruct (next_fault f3) as [r4 f4]. world_norm.
  now rewrite <- !app_assoc.
Qed.

Lemma Trace_eq url code result w :
  Trace url code result w =
  let (evs, f) := write_all (NewColorWriter os_Stdout)
                    (trace_texts url code result) (faults w) in
  Normal tt (set_events (events w ++ evs) (set_faults f w)).
Proof.
  unfold Trace, io_WriteString, trace_texts. apply write_4.
Qed.

Lemma SetOutput_booted dm w wr :
  booted dm w ->
  SetOutput (log w) wr w =
  Normal tt (set_events (events w ++ [EvLock 0; EvUnlock 0])
               (set_heap [mkQLogger false (NewColorWriter wr)] w)).
Proof.
  intros (_ & _ & Hl & _ & _ & _ & out & Hh).
  rewrite Hl. unfold SetOutput, bind.
  erewrite mu_Lock_eq by (rewrite Hh; reflexivity).
  unfold with_defer, bind, deref, store, modify, mu_Unlock, bind, deref,
    store, modify.
  destruct w; simpl in *; subst; simpl.
  unfold emit, set_events, set_heap; simpl. now rewrite <- !app_assoc.
Qed.

(** ** Runs of the two templates *)

Lemma written_writes out cs : written (writes out cs) = map (pair out) cs.
Proof. induction cs as [|c cs IH]; simpl; [reflexivity|now rewrite IH]. Qed.

Lemma attempted_writes out cs : attempted (writes out cs) = map (pair out) cs.
Proof. induction cs as [|c cs IH]; simpl; [reflexivity|now rewrite IH]. Qed.

Lemma text_of_pairs out cs : text_of (map (pair out) cs) = String.concat "" cs.
Proof.
  induction cs as [|c cs IH]; simpl; [reflexivity|].
  rewrite IH. destruct cs; simpl; [now rewrite append_nil_r|reflexivity].
Qed.

Lemma exec_pure_None funcs out r clk ns : forall flt evs f,
  exec_pure funcs out r clk ns flt = (evs, f, None) ->
  exists cs, render funcs r clk ns = Ret cs /\ evs = writes out cs.
Proof.
  induction ns as [|n rest IH]; intros flt evs f H; simpl in *.
  - inversion H; subst. now exists [].
  - destruct (chunk funcs r clk n) as [s|e]; [|discriminate].
    destruct (next_fault flt) as [[k|] flt']; [discriminate|].
    destruct (exec_pure funcs out r clk rest flt') as [[evs' f'] e'] eqn:He.
    inversion H; subst.
    destruct (IH _ _ _ He) as (cs & Hr & ->).
    exists (s :: cs). simpl. now rewrite Hr.
Qed.

Lemma exec_pure_nofault funcs out r clk ns : forall cs,
  render funcs r clk ns = Ret cs ->
  exec_pure funcs out r clk ns [] = (writes out cs, [], None).
Proof.
  induction ns as [|n rest IH]; intros cs H; simpl in *.
  - now inversion H.
  - destruct (chunk funcs r clk n) as [s|e]; [|discriminate]. simpl in *.
    destruct (render funcs r clk rest) as [cs'|e]; [|discriminate].
    simpl in H. inversion H; subst. now rewrite (IH _ eq_refl).
Qed.

Lemma exec_pure_fault funcs out r clk ns k flt s :
  (exists rest, ns = s :: rest) ->
  forall c, chunk funcs r clk s = Ret c ->
  exec_pure funcs out r clk ns (Some k :: flt) =
  ([EvWrite out c (Some k)], flt, Some errWrite).
Proof.
  intros [rest ->] c Hc. simpl. now rewrite Hc.
Qed.

Lemma exec_pure_ext funcs out r r' clk ns : forall flt,
  (forall n, In n ns -> chunk funcs r clk n = chunk funcs r' clk n) ->
  exec_pure funcs out r clk ns flt = exec_pure funcs out r' clk ns flt.
Proof.
  induction ns as [|n rest IH]; intros flt H; simpl; [reflexivity|].
  rewrite <- (H n (or_introl eq_refl)).
  destruct (chunk funcs r clk n); [|reflexivity].
  destruct (next_fault flt) as [[k|] flt']; [reflexivity|].
  rewrite IH; [reflexivity|]. intros m Hm. apply H. now right.
Qed.

Lemma render_selected dm r clk :
  exists cs, render logFuncs r clk (tree (selected dm)) = Ret cs /\
             String.concat "" cs = line_of dm r clk.
Proof.
  destruct dm; simpl; eexists; (split; [reflexivity|]); simpl;
    unfold line_of, verbose_line, concise_line, EndLine; reflexivity.
Qed.

Lemma concise_ignores_location r r' clk out flt :
  ID r = ID r' -> Level r = Level r' -> Message r = Message r' ->
  exec_pure logFuncs out r clk (tree concise_template) flt =
  exec_pure logFuncs out r' clk (tree concise_template) flt.
Proof.
  intros Hi Hl Hm. apply exec_pure_ext. simpl.
  intros n Hn.
  repeat (destruct Hn as [<-|Hn]; [simpl; unfold field; simpl; congruence|]).
  destruct Hn.
Qed.

(** ** The initialised package *)

Lemma mustLog_booted dm w level d msg args stk :
  booted dm w -> levelDebug <= level ->
  exists out,
    heap w = [mkQLogger false out] /\
    mustLog (log w) level d msg args stk w =
    match mkRecord level msg args (fst (locate stk d)) (snd (locate stk d)) with
    | Throw e => Panicked e (logged 0 d [] (faults w) w)
    | Ret r =>
        let '(evs, f, e) :=
          exec_pure logFuncs out r (clock w) (tree (selected dm)) (faults w) in
        match e with
        | None => Normal tt (logged 0 d evs f w)
        | Some e => Panicked e (logged 0 d evs f w)
        end
    end.
Proof.
  intros (_ & _ & Hl & Hlv & _ & Ht & out & Hh) Hle.
  exists out. split; [assumption|].
  rewrite Hl.
  rewrite (mustLog_eq w 0 (mkQLogger false out));
    [|now rewrite Hh|reflexivity|now rewrite Hlv].
  rewrite Ht. destruct dm; reflexivity.
Qed.

Lemma booted_logged dm a d evs f w : booted dm w -> booted dm (logged a d evs f w).
Proof. unfold logged. apply booted_io. Qed.

Lemma mustLog_keeps_booted dm w level d msg args stk w' :
  booted dm w -> levelDebug <= level ->
  mustLog (log w) level d msg args stk w = Normal tt w' -> booted dm w'.
Proof.
  intros Hb Hle H.
  destruct (mustLog_booted dm w level d msg args stk Hb Hle) as (out & _ & E).
  rewrite E in H. clear E.
  destruct (mkRecord _ _ _ _ _); [|discriminate].
  destruct (exec_pure _ _ _ _ _ _) as [[evs f] [e|]]; [discriminate|].
  inversion H; subst. now apply booted_logged.
Qed.

Lemma Fatal_never_returns format v stk w w' :
  Fatal format v stk w <> Normal tt w'.
Proof.
  unfold Fatal, bind, gets, os_Exit.
  destruct (mustLog _ _ _ _ _ _ _); discriminate.
Qed.

Lemma run_keeps_booted dm c w w' :
  booted dm w -> run c w = Normal tt w' -> booted dm w'.
Proof.
  intros Hb H. destruct c as [f v stk|f v stk|f v stk|f v stk|f v stk
                             |u cd r|wr|wr|ly]; simpl in H.
  - unfold Debug, bind, gets in H.
    destruct (debugMode w).
    + eapply mustLog_keeps_booted; eauto. unfold levelDebug; lia.
    + inversion H; now subst.
  - unfold Info, bind, gets in H.
    eapply mustLog_keeps_booted; eauto. unfold levelDebug, levelInfo; lia.
  - unfold Warn, bind, gets in H.
    eapply mustLog_keeps_booted; eauto. unfold levelDebug, levelWarn; lia.
  - unfold Error, bind, gets in H.
    eapply mustLog_keeps_booted; eauto. unfold levelDebug, levelError; lia.
  - now apply Fatal_never_returns in H.
  - rewrite Trace_eq in H.
    destruct (write_all _ _ _) as [evs f]. inversion H; subst.
    now apply booted_io.
  - unfold bind, gets in H. rewrite (SetOutput_booted dm) in H by assumption.
    inversion H; subst. clear H.
    destruct Hb as (H1 & H2 & H3 & H4 & H5 & H6 & out & H7).
    unfold booted; simpl. repeat split; eauto.
  - unfold bind in H. rewrite getQLogger_again in H by apply Hb.
    inversion H; now subst.
  - unfold bind, Now, gets, ret in H. inversion H; now subst.
Qed.

Lemma reachable_booted getenv w :
  reachable getenv w -> booted (getenv "IIGSDEBUG" =? "1")%string w.
Proof.
  induction 1 as [clk flt w H|c w w' _ IH H|t w _ IH|f w _ IH].
  - rewrite package_init_eq in H. inversion H; subst.
    apply booted_initial.
  - eapply run_keeps_booted; eauto.
  - now apply booted_clock.
  - rewrite <- (world_eta (set_faults f w)). simpl.
    change (set_events (events w) (set_faults f (set_faults f w)))
      with (set_events (events w) (set_faults f w)).
    now apply booted_io.
Qed.

(** ** What no call assigns *)

Section Keeps.
Variable R : World -> World -> Prop.
Hypothesis R_refl : forall w, R w w.
Hypothesis R_trans : forall w1 w2 w3, R w1 w2 -> R w2 w3 -> R w1 w3.

Lemma keeps_ret {A} (a : A) : keeps R (ret a).
Proof. intros w. apply R_refl. Qed.

Lemma keeps_gets {A} (f : World -> A) : keeps R (gets f).
Proof. intros w. apply R_refl. Qed.

Lemma keeps_panic {A} (e : error) : keeps R (@panic A e).
Proof. intros w. apply R_refl. Qed.

Lemma keeps_exit {A} (c : Z) : keeps R (@os_Exit A c).
Proof. intros w. apply R_refl. Qed.

Lemma keeps_lift {A} (t : Try A) : keeps R (lift t).
Proof. destruct t; [apply keeps_ret|apply keeps_panic]. Qed.

Lemma keeps_modify (f : World -> World) :
  (forall w, R w (f w)) -> keeps R (modify f).
Proof. intros H w. apply H. Qed.

Lemma keeps_bind {A B} (m : M A) (f : A -> M B) :
  keeps R m -> (forall a, keeps R (f a)) -> keeps R (bind m f).
Proof.
  intros Hm Hf w. unfold bind. specialize (Hm w).
  destruct (m w) as [a w1|e w1|c w1|w1]; simpl in *; try assumption.
  eapply R_trans; [eassumption|apply Hf].
Qed.

Lemma keeps_defer {A} (d : M unit) (body : M A) :
  keeps R d -> keeps R body -> keeps R (with_defer d body).
Proof.
  intros Hd Hb w. unfold with_defer. specialize (Hb w).
  destruct (body w) as [a w1|e w1|c w1|w1]; simpl in *; try assumption.
  - specialize (Hd w1). destruct (d w1); simpl in *; eapply R_trans; eauto.
  - specialize (Hd w1). destruct (d w1); simpl in *; eapply R_trans; eauto.
Qed.

End Keeps.

Lemma same_switches_refl w : same_switches w w.
Proof. now split. Qed.

Lemma same_switches_trans w1 w2 w3 :
  same_switches w1 w2 -> same_switches w2 w3 -> same_switches w1 w3.
Proof. unfold same_switches. intros [? ?] [? ?]. split; congruence. Qed.

Ltac keeps_step :=
  first
    [ assumption
    | solve [auto]
    | apply keeps_ret; [exact same_switches_refl]
    | apply keeps_gets; [exact same_switches_refl]
    | apply keeps_panic; [exact same_switches_refl]
    | apply keeps_exit; [exact same_switches_refl]
    | apply keeps_lift; [exact same_switches_refl]
    | apply keeps_modify; intros ?; split; reflexivity
    | apply keeps_bind; [exact same_switches_trans| |intros ?]
    | apply keeps_defer; [exact same_switches_trans| |]
    | match goal with
      | |- keeps _ (let (_, _) := ?x in _) => destruct x
      | |- keeps _ (if ?b then _ else _) => destruct b
      | |- keeps _ (match ?x with _ => _ end) => destruct x
      end ].

Ltac keeps_tac := repeat keeps_step.

Lemma keeps_deref l : keeps same_switches (deref l).
Proof.
  intros w. unfold deref. destruct l; simpl; [apply same_switches_refl|].
  destruct (nth_error (heap w) a); apply same_switches_refl.
Qed.

Lemma keeps_mu_Lock l : keeps same_switches (mu_Lock l).
Proof.
  unfold mu_Lock, store. pose proof (keeps_deref l). keeps_tac.
Qed.

Lemma keeps_mu_Unlock l : keeps same_switches (mu_Unlock l).
Proof.
  unfold mu_Unlock, store. pose proof (keeps_deref l). keeps_tac.
Qed.

Lemma keeps_io_Write out p : keeps same_switches (io_Write out p).
Proof.
  intros w. unfold io_Write. destruct (next_fault (faults w)).
  split; reflexivity.
Qed.

Lemma keeps_exec_nodes funcs out r ns :
  keeps same_switches (exec_nodes funcs out r ns).
Proof.
  induction ns as [|n rest IH]; simpl.
  - keeps_tac.
  - pose proof (keeps_io_Write out).
    unfold eval_node, call_func, Now. keeps_tac.
Qed.

Lemma keeps_getQLogger wr : keeps same_switches (getQLogger wr).
Proof.
  unfold getQLogger, once_Do, parse_into_logRecordTemplate, alloc.
  keeps_tac; intros w; apply same_switches_refl.
Qed.

Lemma keeps_SetOutput l wr : keeps same_switches (SetOutput l wr).
Proof.
  unfold SetOutput, store.
  pose proof (keeps_mu_Lock l). pose proof (keeps_mu_Unlock l).
  pose proof (keeps_deref l). keeps_tac.
Qed.

Lemma keeps_mustLog l level d msg args stk :
  keeps same_switches (mustLog l level d msg args stk).
Proof.
  unfold mustLog, caller_location, runtime_Caller, template_Execute.
  pose proof (keeps_mu_Lock l). pose proof (keeps_mu_Unlock l).
  pose proof (keeps_deref l).
  pose proof keeps_exec_nodes.
  keeps_tac.
Qed.

Lemma keeps_Trace url code result :
  keeps same_switches (Trace url code result).
Proof.
  unfold Trace, io_WriteString.
  pose proof keeps_io_Write. keeps_tac.
Qed.

Lemma keeps_run c : keeps same_switches (run c).
Proof.
  pose proof keeps_mustLog. pose proof keeps_Trace.
  pose proof keeps_SetOutput. pose proof keeps_getQLogger.
  destruct c; simpl; unfold Debug, Info, Warn, Error, Fatal, Now; keeps_tac.
Qed.

Lemma write_all_rest out ps : forall flt,
  snd (write_all out ps flt) = skipn (length ps) flt.
Proof.
  induction ps as [|p rest IH]; intros flt; simpl; [reflexivity|].
  destruct flt as [|r flt']; simpl.
  - specialize (IH []). destruct (write_all out rest []) as [evs f].
    simpl in *. rewrite IH. now destruct (length rest).
  - specialize (IH flt'). now destruct (write_all out rest flt') as [evs f].
Qed.

Lemma write_all_length out ps : forall flt,
  length (fst (write_all out ps flt)) = length ps.
Proof.
  induction ps as [|p rest IH]; intros flt; simpl; [reflexivity|].
  destruct (next_fault flt) as [r flt']. specialize (IH flt').
  destruct (write_all out rest flt') as [evs f]. simpl in *. now rewrite IH.
Qed.

Lemma write_all_attempted out ps : forall flt,
  attempted (fst (write_all out ps flt)) = map (pair out) ps.
Proof.
  induction ps as [|p rest IH]; intros flt; simpl; [reflexivity|].
  destruct (next_fault flt) as [r flt']. specialize (IH flt').
  destruct (write_all out rest flt') as [evs f]. simpl in *. now rewrite IH.
Qed.

Lemma write_all_nofault out ps :
  written (fst (write_all out ps [])) = map (pair out) ps.
Proof.
  induction ps as [|p rest IH]; simpl; [reflexivity|].
  destruct (write_all out rest []) as [evs f]. simpl in *. now rewrite IH.
Qed.

(** ** Levels and records *)

Lemma getColorLevel_range level :
  match getColorLevel level with
  | Ret t => levelDebug <= level <= levelFatal
  | Throw e => e = errInvalidLogLevel /\
               (level < levelDebug \/ levelFatal < level)
  end.
Proof.
  unfold getColorLevel, getLevelTag, levelDebug, levelInfo, levelWarn,
    levelError, levelFatal.
  destruct (Z.eqb_spec level 0); [subst; simpl; lia|].
  destruct (Z.eqb_spec level 1); [subst; simpl; lia|].
  destruct (Z.eqb_spec level 2); [subst; simpl; lia|].
  destruct (Z.eqb_spec level 3); [subst; simpl; lia|].
  destruct (Z.eqb_spec level 4); [subst; simpl; lia|].
  split; [reflexivity|lia].
Qed.

Lemma getLevelTag_range level :
  match getLevelTag level with
  | Ret t => String.length t = 5%nat /\ levelDebug <= level <= levelFatal
  | Throw e => e = errInvalidLogLevel /\
               (level < levelDebug \/ levelFatal < level)
  end.
Proof.
  unfold getLevelTag, levelDebug, levelInfo, levelWarn, levelError, levelFatal.
  destruct (Z.eqb_spec level 0); [subst; simpl; split; [reflexivity|lia]|].
  destruct (Z.eqb_spec level 1); [subst; simpl; split; [reflexivity|lia]|].
  destruct (Z.eqb_spec level 2); [subst; simpl; split; [reflexivity|lia]|].
  destruct (Z.eqb_spec level 3); [subst; simpl; split; [reflexivity|lia]|].
  destruct (Z.eqb_spec level 4); [subst; simpl; split; [reflexivity|lia]|].
  split; [reflexivity|lia].
Qed.

Lemma mkRecord_eq level msg args file line :
  mkRecord level msg args file line =
  match getColorLevel level with
  | Ret lv => Ret {| ID := ""; Level := lv; Message := fmt_Sprintf msg args;
                     Filename := filepath_Base file; LineNo := line |}
  | Throw e => Throw e
  end.
Proof. unfold mkRecord. now destruct (getColorLevel level). Qed.

Lemma mustLog_skip l level d msg args stk w :
  level < logLevel w -> mustLog l level d msg args stk w = Normal tt w.
Proof.
  intros H. unfold mustLog, bind, gets.
  destruct (Z.ltb_spec level (logLevel w)); [reflexivity|lia].
Qed.

Lemma events_logged a d evs f w :
  events (logged a d evs f w) =
  (events w ++ EvLock a :: EvCaller d :: evs ++ [EvUnlock a])%list.
Proof. reflexivity. Qed.

Lemma written_logged a d out cs :
  written (EvLock a :: EvCaller d :: writes out cs ++ [EvUnlock a])%list =
  map (pair out) cs.
Proof.
  simpl. induction cs as [|c cs IH]; simpl; [reflexivity|now rewrite IH].
Qed.

(** ** A call that returns, a call with writers that accept *)

Lemma mustLog_Normal_booted dm w level d msg args stk w' :
  booted dm w -> levelDebug <= level ->
  mustLog (log w) level d msg args stk w = Normal tt w' ->
  exists out lv cs f,
    heap w = [mkQLogger false out] /\
    getColorLevel level = Ret lv /\
    let r := {| ID := ""; Level := lv; Message := fmt_Sprintf msg args;
                Filename := filepath_Base (fst (locate stk d));
                LineNo := snd (locate stk d) |} in
    render logFuncs r (clock w) (tree (selected dm)) = Ret cs /\
    String.concat "" cs = line_of dm r (clock w) /\
    w' = logged 0 d (writes out cs) f w.
Proof.
  intros Hb Hle H.
  destruct (mustLog_booted dm w level d msg args stk Hb Hle) as (out & Hh & E).
  rewrite E in H. clear E. rewrite mkRecord_eq in H.
  destruct (getColorLevel level) as [lv|e]; [|discriminate].
  destruct (exec_pure _ _ _ _ _ _) as [[evs f] [e|]] eqn:He; [discriminate|].
  inversion H; subst. clear H.
  destruct (exec_pure_None _ _ _ _ _ _ _ _ He) as (cs & Hr & ->).
  exists out, lv, cs, f. repeat split; try assumption.
  destruct (render_selected dm
              {| ID := ""; Level := lv; Message := fmt_Sprintf msg args;
                 Filename := filepath_Base (fst (locate stk d));
                 LineNo := snd (locate stk d) |} (clock w)) as (cs' & Hr' & Hc).
  rewrite Hr in Hr'. now inversion Hr'; subst.
Qed.

Lemma mustLog_nofault_booted dm w level d msg args stk lv :
  booted dm w -> getColorLevel level = Ret lv -> faults w = [] ->
  exists out cs,
    heap w = [mkQLogger false out] /\
    let r := {| ID := ""; Level := lv; Message := fmt_Sprintf msg args;
                Filename := filepath_Base (fst (locate stk d));
                LineNo := snd (locate stk d) |} in
    render logFuncs r (clock w) (tree (selected dm)) = Ret cs /\
    String.concat "" cs = line_of dm r (clock w) /\
    mustLog (log w) level d msg args stk w =
      Normal tt (logged 0 d (writes out cs) [] w).
Proof.
  intros Hb Hlv Hf.
  assert (Hle : levelDebug <= level).
  { pose proof (getColorLevel_range level) as Hr. rewrite Hlv in Hr. lia. }
  destruct (mustLog_booted dm w level d msg args stk Hb Hle) as (out & Hh & E).
  rewrite mkRecord_eq, Hlv, Hf in E.
  destruct (render_selected dm
              {| ID := ""; Level := lv; Message := fmt_Sprintf msg args;
                 Filename := filepath_Base (fst (locate stk d));
                 LineNo := snd (locate stk d) |} (clock w)) as (cs & Hr & Hc).
  rewrite (exec_pure_nofault _ _ _ _ _ _ Hr) in E.
  exists out, cs. repeat split; assumption.
Qed.

End Facts.

(** * The claims *)

Section Claims.
Context {colors : Colors} {golib : GoLib}.

(** C8. [getLevelTag] gives the five severities the five-character tags
    ["DEBUG"], ["INFO "], ["WARN "], ["ERROR"], ["FATAL"], and [getColorLevel]
    gives them the same tags decorated in cyan, green, yellow, red and
    magenta.  Both succeed exactly on the five severities: a level below
    [levelDebug] or above [levelFatal] makes them panic with
    [errInvalidLogLevel], and no other level does. *)
Theorem level_tags :
  (getLevelTag levelDebug = Ret "DEBUG" /\
   getLevelTag levelInfo = Ret "INFO " /\
   getLevelTag levelWarn = Ret "WARN " /\
   getLevelTag levelError = Ret "ERROR" /\
   getLevelTag levelFatal = Ret "FATAL") /\
  (getColorLevel levelDebug = Ret (CyanBold "DEBUG") /\
   getColorLevel levelInfo = Ret (GreenBold "INFO ") /\
   getColorLevel levelWarn = Ret (YellowBold "WARN ") /\
   getColorLevel levelError = Ret (RedBold "ERROR") /\
   getColorLevel levelFatal = Ret (MagentaBold "FATAL")) /\
  (forall level,
     match getLevelTag level with
     | Ret t => String.length t = 5%nat /\ levelDebug <= level <= levelFatal
     | Throw e => e = errInvalidLogLevel /\
                  (level < levelDebug \/ levelFatal < level)
     end) /\
  (forall level,
     match getColorLevel level with
     | Ret t => levelDebug <= level <= levelFatal
     | Throw e => e = errInvalidLogLevel /\
                  (level < levelDebug \/ levelFatal < level)
     end).
Proof.
  split; [repeat split|]. split; [repeat split|].
  split; intros level; [apply getLevelTag_range|apply getColorLevel_range].
Qed.

(** C2. Threshold gating: when the level is strictly below the threshold
    [logLevel], [mustLog] returns at once and leaves the world as it found
    it.  The events are the same, so nothing was written, the mutex was not
    taken and the caller was not looked up; the heap is the same, so the
    mutex is in the state it was in. *)
Theorem mustLog_below_threshold l level calldepth message args stk w :
  level < logLevel w ->
  mustLog l level calldepth message args stk w = Normal tt w.
Proof. apply mustLog_skip. Qed.

(** C4. Debug gating: with [debugMode] off, [Debug] returns at once and
    leaves the world as it found it: nothing written, mutex not taken.  This
    does not come from the threshold: whatever [logLevel] is, the result is
    the same, and when the threshold admits [levelDebug] a call of [mustLog]
    would not have left the world unchanged, so [mustLog] was not called. *)
Theorem Debug_gated format v stk w :
  debugMode w = false ->
  Debug format v stk w = Normal tt w /\
  (forall t, Debug format v stk (set_logLevel t w) = Normal tt (set_logLevel t w)) /\
  (forall l, logLevel w <= levelDebug ->
             mustLog l levelDebug 2 format v (frames 177 stk) w <> Normal tt w).
Proof.
  intros H. repeat split.
  - unfold Debug, bind, gets. now rewrite H.
  - intros t. unfold Debug, bind, gets. simpl. now rewrite H.
  - intros l Hl. now apply mustLog_not_silent.
Qed.

(** C10. [logLevel] starts at [levelDebug] and no call assigns it, so in
    every world the process can reach it is still [levelDebug]; the test
    [level < logLevel] of [mustLog] is false for the levels of the five
    entry points; and an entry point leaves the world untouched only when it
    is [Debug] with [debugMode] off. *)
Theorem threshold_never_filters getenv w :
  reachable getenv w ->
  (forall clk flt, logLevel (zero_world getenv clk flt) = levelDebug) /\
  (forall c w0, logLevel (world_of (run c w0)) = logLevel w0) /\
  logLevel w = levelDebug /\
  (forall level,
     In level [levelDebug; levelInfo; levelWarn; levelError; levelFatal] ->
     (level <? logLevel w) = false) /\
  (forall c, level_call c = true ->
     (run c w = Normal tt w <-> is_Debug c = true /\ debugMode w = false)).
Proof.
  intros Hr. pose proof (reachable_booted _ _ Hr) as Hb.
  assert (Hl : logLevel w = levelDebug) by apply Hb.
  split; [reflexivity|]. split; [intros c w0; apply (keeps_run c w0)|].
  split; [assumption|]. split.
  - intros level Hin. rewrite Hl. apply Z.ltb_ge.
    unfold levelDebug, levelInfo, levelWarn, levelError, levelFatal in *.
    simpl in Hin. lia.
  - intros c Hc.
    assert (Hns : forall l level d m a s, levelDebug <= level ->
              mustLog l level d m a s w <> Normal tt w).
    { intros. apply mustLog_not_silent. now rewrite Hl. }
    destruct c as [f v stk|f v stk|f v stk|f v stk|f v stk|u cd r|wr|wr|ly];
      try discriminate; simpl.
    + unfold Debug, bind, gets. destruct (debugMode w).
      * split; [intros H; now apply Hns in H|intros [_ H]; discriminate].
      * split; auto.
    + unfold Info, bind, gets.
      split; [intros H; apply Hns in H; [easy|unfold levelDebug, levelInfo; lia]
             |intros [H _]; discriminate].
    + unfold Warn, bind, gets.
      split; [intros H; apply Hns in H; [easy|unfold levelDebug, levelWarn; lia]
             |intros [H _]; discriminate].
    + unfold Error, bind, gets.
      split; [intros H; apply Hns in H; [easy|unfold levelDebug, levelError; lia]
             |intros [H _]; discriminate].
    + split; [intros H; now apply Fatal_never_returns in H
             |intros [H _]; discriminate].
Qed.

(** C6. [Trace] makes four writes on the color writer of standard output:
    the banner, then the URL line, the code line and the result line, each
    decorated in magenta; whatever the writes answer it goes on and returns.
    It changes nothing in the world but the events and the write results
    left, and what it writes does not depend on the world: not on
    [logLevel], on the template, on the logger or on its mutex and output. *)
Theorem Trace_independent url code result w :
  let out := NewColorWriter os_Stdout in
  let texts :=
    [ "=================================" ++ nl;
      MagentaBold (fmt_Sprintf ("   URL: %+v" ++ nl) [VString url]);
      MagentaBold (fmt_Sprintf ("  CODE: %+v" ++ nl) [VInt code]);
      MagentaBold (fmt_Sprintf ("RESULT: %+v" ++ nl) [VString result]) ] in
  exists evs,
    Trace url code result w =
      Normal tt (set_events (events w ++ evs)
                   (set_faults (skipn 4 (faults w)) w)) /\
    length evs = 4%nat /\
    attempted evs = map (pair out) texts /\
    (faults w = [] -> written evs = map (pair out) texts).
Proof.
  intros out texts.
  pose proof (Trace_eq url code result w) as E.
  pose proof (write_all_rest out texts (faults w)) as Hrest.
  pose proof (write_all_length out texts (faults w)) as Hlen.
  pose proof (write_all_attempted out texts (faults w)) as Hatt.
  change (trace_texts url code result) with texts in E. fold out in E.
  destruct (write_all out texts (faults w)) as [evs f] eqn:Hw.
  simpl in Hrest, Hlen, Hatt. subst f.
  exists evs. repeat split; try assumption.
  intros Hf. rewrite Hf in Hw.
  pose proof (write_all_nofault out texts) as Hn. now rewrite Hw in Hn.
Qed.

(** C1. The round trip.  The process starts in concise mode ([IIGSDEBUG]
    is not ["1"]), so with the threshold at [levelDebug]; the clock shows
    2024-01-02 03:04:05 and the writer accepts what it is given.  [fmt] and
    [time] are taken to format the message and the time as Go does.  Then
    [Info "user %s logged in" "alice"] returns, all it writes goes to the
    color writer of standard output, and the text is
    ["[IIGService] 2024/01/02 03:04:05 "], the green tag ["INFO "] and
    [" ▶  user alice logged in"] with a newline: without the color codes,
    the line of the specification.  The two spaces after the glyph surround
    the ID, which [mkRecord] leaves empty for every call; no file and line
    appear. *)
Theorem Info_roundtrip getenv stk :
  (getenv "IIGSDEBUG" =? "1")%string = false ->
  fmt_Sprintf "user %s logged in" [VString "alice"] = "user alice logged in" ->
  time_Format (mkTime 2024 1 2 3 4 5) "2006/01/02 15:04:05"
    = "2024/01/02 03:04:05" ->
  exists w0 w1,
    package_init getenv (mkTime 2024 1 2 3 4 5) [] = Normal tt w0 /\
    logLevel w0 = levelDebug /\ events w0 = [] /\
    Info "user %s logged in" [VString "alice"] stk w0 = Normal tt w1 /\
    (forall out p, In (out, p) (written (events w1)) ->
                   out = NewColorWriter os_Stdout) /\
    text_of (written (events w1)) =
      "[IIGService] 2024/01/02 03:04:05 " ++ GreenBold "INFO "
      ++ " ▶  user alice logged in" ++ nl /\
    (GreenBold "INFO " = "INFO " ->
     text_of (written (events w1)) =
       "[IIGService] 2024/01/02 03:04:05 INFO  ▶  user alice logged in" ++ nl) /\
    (forall level msg args file line r,
       mkRecord level msg args file line = Ret r -> ID r = "").
Proof.
  intros Hdm Hs Ht.
  rewrite package_init_eq, Hdm.
  set (w0 := initial false (NewColorWriter os_Stdout) (mkTime 2024 1 2 3 4 5) []).
  destruct (mustLog_nofault_booted false w0 levelInfo 2
              "user %s logged in" [VString "alice"] (frames 183 stk)
              (GreenBold "INFO ") (booted_initial _ _ _ _) eq_refl eq_refl)
    as (out & cs & Hh & Hr & Hc & E).
  inversion Hh; subst out. clear Hh.
  exists w0, (logged 0 2 (writes (NewColorWriter os_Stdout) cs) [] w0).
  assert (Hw : written (events (logged 0 2 (writes (NewColorWriter os_Stdout) cs) [] w0))
               = map (pair (NewColorWriter os_Stdout)) cs).
  { rewrite events_logged. change (events w0) with (@nil Event).
    rewrite app_nil_l. apply written_logged. }
  assert (Htext : text_of (written (events (logged 0 2
                     (writes (NewColorWriter os_Stdout) cs) [] w0))) =
      "[IIGService] 2024/01/02 03:04:05 " ++ GreenBold "INFO "
      ++ " ▶  user alice logged in" ++ nl).
  { rewrite Hw, text_of_pairs, Hc. unfold line_of, concise_line.
    cbn [Level ID Message clock w0 initial]. unfold layout.
    rewrite Hs, Ht. reflexivity. }
  split; [reflexivity|]. split; [reflexivity|]. split; [reflexivity|].
  split; [exact E|]. split; [|split; [exact Htext|split]].
  - intros o p Hin. rewrite Hw in Hin. apply in_map_iff in Hin.
    destruct Hin as (c & Hc' & _). now inversion Hc'.
  - intros Hg. rewrite Htext, Hg. reflexivity.
  - intros level msg args file line r Hrec. rewrite mkRecord_eq in Hrec.
    destruct (getColorLevel level); inversion Hrec; reflexivity.
Qed.

(** C3. The logger is made once.  On a fresh package the first call of
    [getQLogger] allocates the logger, with the color writer of its argument
    as output and the mutex free, and parses one template: the verbose one
    when [debugMode] is set, the concise one otherwise.  Once [once] is done
    a call with any writer returns [instance] and changes nothing.  In every
    world the process reaches there is one logger on the heap, [instance] and
    [log] point to it and the template is the one chosen at the start.  So
    when the start was concise, what a call of [mustLog] does is the same
    whatever the stack it is called from, and when it returns the text it
    wrote is a concise line: no file and line in it.  (The calls are taken
    one after the other, as [sync.Once] orders them.) *)
Theorem getQLogger_singleton getenv clk flt wr :
  let dm := (getenv "IIGSDEBUG" =? "1")%string in
  (exists w1,
     getQLogger wr (zero_world getenv clk flt) = Normal (Addr 0) w1 /\
     once w1 = true /\ instance w1 = Addr 0 /\
     heap w1 = [mkQLogger false (NewColorWriter wr)] /\
     logRecordTemplate w1 =
       Some (if dm then verbose_template else concise_template)) /\
  (forall w wr', once w = true -> getQLogger wr' w = Normal (instance w) w) /\
  (forall w, reachable getenv w ->
     once w = true /\ instance w = Addr 0 /\ log w = Addr 0 /\
     length (heap w) = 1%nat /\
     logRecordTemplate w =
       Some (if dm then verbose_template else concise_template) /\
     forall wr', getQLogger wr' w = Normal (Addr 0) w) /\
  (dm = false ->
   forall w, reachable getenv w ->
   forall level d msg args stk,
     (forall stk', mustLog (log w) level d msg args stk w
                   = mustLog (log w) level d msg args stk' w) /\
     (forall w', levelDebug <= level ->
        mustLog (log w) level d msg args stk w = Normal tt w' ->
        exists lv evs,
          getColorLevel level = Ret lv /\
          events w' = (events w ++ evs)%list /\
          text_of (written evs) =
            concise_line (time_Format (clock w) layout) lv ""
                         (fmt_Sprintf msg args))).
Proof.
  intros dm. split; [|split; [|split]].
  - eexists. rewrite getQLogger_first. fold dm.
    repeat split.
  - intros w wr'. apply getQLogger_again.
  - intros w Hr. pose proof (reachable_booted _ _ Hr) as Hb. fold dm in Hb.
    destruct Hb as (Ho & Hi & Hl & _ & _ & Ht & out & Hh).
    split; [assumption|]. split; [assumption|]. split; [assumption|].
    split; [now rewrite Hh|]. split; [exact Ht|].
    intros wr'. rewrite getQLogger_again by assumption. now rewrite Hi.
  - intros Hdm w Hr level d msg args stk.
    pose proof (reachable_booted _ _ Hr) as Hb. fold dm in Hb.
    rewrite Hdm in Hb. split.
    + intros stk'.
      destruct (Z.lt_ge_cases level levelDebug) as [Hlt|Hge].
      * assert (Hll : logLevel w = levelDebug) by apply Hb.
        rewrite !mustLog_skip by (rewrite Hll; assumption). reflexivity.
      * destruct (mustLog_booted false w level d msg args stk Hb Hge)
          as (out & Hh & E).
        destruct (mustLog_booted false w level d msg args stk' Hb Hge)
          as (out' & Hh' & E').
        rewrite Hh in Hh'. inversion Hh'; subst out'.
        rewrite E, E', !mkRecord_eq.
        destruct (getColorLevel level) as [lv|e]; [|reflexivity].
        now rewrite (concise_ignores_location
                       {| ID := ""; Level := lv; Message := fmt_Sprintf msg args;
                          Filename := filepath_Base (fst (locate stk d));
                          LineNo := snd (locate stk d) |}
                       {| ID := ""; Level := lv; Message := fmt_Sprintf msg args;
                          Filename := filepath_Base (fst (locate stk' d));
                          LineNo := snd (locate stk' d) |}).
    + intros w' Hge H.
      destruct (mustLog_Normal_booted false w level d msg args stk w' Hb Hge H)
        as (out & lv & cs & f & Hh & Hlv & Hr' & Hc & ->).
      exists lv, (EvLock 0 :: EvCaller d :: writes out cs ++ [EvUnlock 0])%list.
      split; [assumption|]. split; [apply events_logged|].
      rewrite written_logged, text_of_pairs, Hc. reflexivity.
Qed.

(** C5. [Fatal] never returns.  In a world the process can reach, when
    [Fatal] ends in [os.Exit] the exit code is [-1], not zero, and by then
    the whole record is out: between taking and releasing the mutex every
    piece of the template was written on the output of the logger and
    accepted, and together the pieces are the line of the record under the
    template in force.  The exit comes after the last write; the status the
    parent sees, the code modulo 256, is not zero either.  With a writer
    that accepts, [Fatal] does end in that exit. *)
Theorem Fatal_writes_then_exits getenv w format v stk :
  reachable getenv w ->
  let dm := (getenv "IIGSDEBUG" =? "1")%string in
  let r := {| ID := ""; Level := MagentaBold "FATAL";
              Message := fmt_Sprintf format v;
              Filename := filepath_Base (fst (locate stk 0));
              LineNo := snd (locate stk 0) |} in
  (forall w', Fatal format v stk w <> Normal tt w') /\
  (forall code w',
     Fatal format v stk w = Exited code w' ->
     code = -1 /\ code <> 0 /\ code mod 256 <> 0 /\
     exists out cs,
       heap w = [mkQLogger false out] /\
       render logFuncs r (clock w) (tree (selected dm)) = Ret cs /\
       String.concat "" cs = line_of dm r (clock w) /\
       events w' =
         (events w ++ EvLock 0 :: EvCaller 2 :: writes out cs ++ [EvUnlock 0])%list /\
       text_of (written (EvLock 0 :: EvCaller 2 :: writes out cs ++ [EvUnlock 0]))
         = line_of dm r (clock w)) /\
  (faults w = [] -> exists w', Fatal format v stk w = Exited (-1) w').
Proof.
  intros Hr dm r. pose proof (reachable_booted _ _ Hr) as Hb. fold dm in Hb.
  split; [|split].
  - intros w'. apply Fatal_never_returns.
  - intros code w' H. unfold Fatal, bind, gets, os_Exit in H.
    assert (Hge : levelDebug <= levelFatal) by (unfold levelDebug, levelFatal; lia).
    destruct (mustLog (log w) levelFatal 2 format v (frames 198 stk) w)
      as [[] w1|e w1|c w1|w1] eqn:E; try discriminate.
    + inversion H; subst. clear H.
      split; [reflexivity|]. split; [discriminate|]. split; [discriminate|].
      destruct (mustLog_Normal_booted dm w levelFatal 2 format v
                  (frames 198 stk) w' Hb Hge E)
        as (out & lv & cs & f & Hh & Hlv & Hr' & Hc & ->).
      inversion Hlv; subst lv.
      exists out, cs.
      split; [exact Hh|]. split; [exact Hr'|]. split; [exact Hc|].
      split; [apply events_logged|].
      rewrite written_logged, text_of_pairs. exact Hc.
    + exfalso.
      destruct (mustLog_booted dm w levelFatal 2 format v (frames 198 stk) Hb Hge)
        as (out & _ & E').
      rewrite E' in E. destruct (mkRecord _ _ _ _ _); [|discriminate].
      destruct (exec_pure _ _ _ _ _ _) as [[evs f] [e|]]; discriminate.
  - intros Hf.
    destruct (mustLog_nofault_booted dm w levelFatal 2 format v (frames 198 stk)
                (MagentaBold "FATAL") Hb eq_refl Hf)
      as (out & cs & _ & _ & _ & E).
    eexists. unfold Fatal, bind, gets, os_Exit. rewrite E. reflexivity.
Qed.

(** C7. When the mutex is free at the call, [mustLog] ends by returning
    or by panicking, and either way the mutex is free again: the logger on
    the heap is as it was.  And when [Execute], called under the lock on the
    record of the call, returns an error, be it from rendering or from a
    write, [mustLog] panics with that very error, after releasing the
    lock. *)
Theorem mustLog_failure_panics w a ql level d msg args stk :
  nth_error (heap w) a = Some ql -> mu ql = false ->
  (match mustLog (Addr a) level d msg args stk w with
   | Normal _ w' | Panicked _ w' =>
       heap w' = heap w /\
       exists ql', nth_error (heap w') a = Some ql' /\ mu ql' = false
   | _ => False
   end) /\
  (forall r e w2,
     logLevel w <= level ->
     mkRecord level msg args (fst (locate stk d)) (snd (locate stk d)) = Ret r ->
     template_Execute (logRecordTemplate w) (output ql) r
                      (at_Execute a (output ql) d w) = Normal (Some e) w2 ->
     exists w',
       mustLog (Addr a) level d msg args stk w = Panicked e w' /\
       events w' = (events w2 ++ [EvUnlock a])%list /\
       heap w' = heap w).
Proof.
  intros Hq Hmu. split.
  - destruct (Z.lt_ge_cases level (logLevel w)) as [Hlt|Hge].
    + rewrite mustLog_skip by assumption. split; [reflexivity|eauto].
    + assert (Hfree : forall evs f,
                heap (logged a d evs f w) = heap w /\
                exists ql', nth_error (heap (logged a d evs f w)) a = Some ql' /\
                            mu ql' = false)
        by (intros; split; [reflexivity|exists ql; split; assumption]).
      rewrite (mustLog_eq _ _ _ _ _ _ _ _ Hq Hmu Hge).
      destruct (mkRecord _ _ _ _ _); [|apply Hfree].
      destruct (logRecordTemplate w); [|apply Hfree].
      destruct (exec_pure _ _ _ _ _ _) as [[evs f] [e|]]; apply Hfree.
  - intros r e w2 Hge Hrec Hex.
    rewrite (mustLog_eq _ _ _ _ _ _ _ _ Hq Hmu Hge), Hrec.
    destruct (logRecordTemplate w) as [tpl|]; [|discriminate].
    unfold template_Execute in Hex. rewrite exec_nodes_pure in Hex.
    change (clock (at_Execute a (output ql) d w)) with (clock w) in Hex.
    change (faults (at_Execute a (output ql) d w)) with (faults w) in Hex.
    destruct (exec_pure _ _ _ _ _ _) as [[evs f] e'].
    inversion Hex; subst. clear Hex.
    eexists. split; [reflexivity|]. split; [|reflexivity].
    rewrite events_logged. simpl. rewrite <- !app_assoc. reflexivity.
Qed.

(** C9. When [runtime.Caller] finds no frame at the depth asked for,
    [caller_location] answers ["???"] and [0] and nothing fails: the record
    has ["???"] as [Filename] and [0] as [LineNo], and in a world the process
    can reach, with a level of the API and a writer that accepts, [mustLog]
    returns after writing the line of that record.  When a frame is found,
    the [Filename] of the record is [filepath.Base] of its file and the
    [LineNo] its line; the base name of [dir/name] is [name], and a base name
    holds no separator unless it is the root. *)
Theorem caller_fallback stk d w :
  (nth_error stk d = None ->
   caller_location stk d w = Normal ("???", 0) (emit (EvCaller d) w) /\
   (forall level msg args lv,
      getColorLevel level = Ret lv ->
      mkRecord level msg args "???" 0 =
        Ret {| ID := ""; Level := lv; Message := fmt_Sprintf msg args;
               Filename := "???"; LineNo := 0 |}) /\
   (forall getenv level msg args lv,
      reachable getenv w -> faults w = [] -> getColorLevel level = Ret lv ->
      exists w' evs,
        mustLog (log w) level d msg args stk w = Normal tt w' /\
        events w' = (events w ++ evs)%list /\
        text_of (written evs) =
          line_of (getenv "IIGSDEBUG" =? "1")%string
            {| ID := ""; Level := lv; Message := fmt_Sprintf msg args;
               Filename := "???"; LineNo := 0 |} (clock w))) /\
  (forall file line,
     nth_error stk d = Some (file, line) ->
     caller_location stk d w = Normal (file, line) (emit (EvCaller d) w) /\
     (forall level msg args r,
        mkRecord level msg args file line = Ret r ->
        Filename r = filepath_Base file /\ LineNo r = line) /\
     (forall dir name,
        file = dir ++ "/" ++ name -> name <> "" -> has_slash name = false ->
        filepath_Base file = name) /\
     (filepath_Base file = "/" \/ has_slash (filepath_Base file) = false)).
Proof.
  split.
  - intros Hn.
    assert (Hloc : locate stk d = ("???", 0)) by (unfold locate; now rewrite Hn).
    split; [|split].
    + rewrite caller_location_eq. now rewrite Hloc.
    + intros level msg args lv Hlv. now rewrite mkRecord_eq, Hlv.
    + intros getenv level msg args lv Hr Hf Hlv.
      pose proof (reachable_booted _ _ Hr) as Hb.
      destruct (mustLog_nofault_booted _ w level d msg args stk lv Hb Hlv Hf)
        as (out & cs & Hh & Hr' & Hc & E).
      rewrite Hloc in Hr', Hc. simpl fst in *. simpl snd in *.
      change (filepath_Base "???") with "???" in *.
      eexists. eexists. split; [exact E|]. split; [apply events_logged|].
      rewrite written_logged, text_of_pairs. exact Hc.
  - intros file line Hn.
    assert (Hloc : locate stk d = (file, line)) by (unfold locate; now rewrite Hn).
    split; [|split; [|split]].
    + rewrite caller_location_eq. now rewrite Hloc.
    + intros level msg args r Hrec. rewrite mkRecord_eq in Hrec.
      destruct (getColorLevel level); inversion Hrec; subst. now split.
    + intros dir name -> Hne Hs. now apply filepath_Base_dir.
    + apply filepath_Base_slash.
Qed.

End Claims.

(** * Further properties of the package *)

Section Further.
Context {colors : Colors} {golib : GoLib}.

(** ** Lines of the level API *)

Lemma entry_line dm w level line lv format v stk :
  booted dm w -> faults w = [] -> getColorLevel level = Ret lv ->
  writes_line (mustLog (log w) level 2 format v (frames line stk)) w
              (line_of dm (record_of lv format v stk) (clock w)).
Proof.
  intros Hb Hf Hlv.
  destruct (mustLog_nofault_booted dm w level 2 format v (frames line stk) lv
              Hb Hlv Hf) as (out & cs & Hh & Hr & Hc & E).
  exists out, cs. split; [exact Hh|]. split; [exact E|exact Hc].
Qed.

Lemma written_app a b : written (a ++ b) = (written a ++ written b)%list.
Proof.
  induction a as [|e a IH]; simpl; [reflexivity|].
  now rewrite IH, app_assoc.
Qed.

Lemma text_of_app a b : text_of (a ++ b) = text_of a ++ text_of b.
Proof.
  induction a as [|[o p] a IH]; simpl; [reflexivity|].
  now rewrite IH, append_assoc.
Qed.

Lemma writes_line_text m w line :
  writes_line m w line ->
  exists w' evs,
    m w = Normal tt w' /\ events w' = (events w ++ evs)%list /\
    text_of (written evs) = line /\
    faults w' = [] /\ clock w' = clock w /\
    forall dm, booted dm w -> booted dm w'.
Proof.
  intros (out & cs & Hh & E & Hc).
  eexists. eexists. split; [exact E|]. split; [apply events_logged|].
  split; [now rewrite written_logged, text_of_pairs|].
  split; [reflexivity|]. split; [reflexivity|].
  intros dm. apply booted_logged.
Qed.

(** X1. In a world the process can reach and with a writer that accepts,
    [Info], [Warn] and [Error] each return after writing one line under the
    lock: the line of the template in force for the record with the tag of
    the level (green, yellow, red), the formatted message, the base name of
    the file of the caller of the entry point and the line of that caller;
    the call depth 2 skips the frames of [mustLog] and of the entry point. *)
Theorem level_calls_write_line getenv w format v stk :
  reachable getenv w -> faults w = [] ->
  let dm := (getenv "IIGSDEBUG" =? "1")%string in
  writes_line (Info format v stk) w
    (line_of dm (record_of (GreenBold "INFO ") format v stk) (clock w)) /\
  writes_line (Warn format v stk) w
    (line_of dm (record_of (YellowBold "WARN ") format v stk) (clock w)) /\
  writes_line (Error format v stk) w
    (line_of dm (record_of (RedBold "ERROR") format v stk) (clock w)).
Proof.
  intros Hr Hf dm. pose proof (reachable_booted _ _ Hr) as Hb. fold dm in Hb.
  split; [|split].
  - exact (entry_line dm w levelInfo 183 _ format v stk Hb Hf eq_refl).
  - exact (entry_line dm w levelWarn 188 _ format v stk Hb Hf eq_refl).
  - exact (entry_line dm w levelError 193 _ format v stk Hb Hf eq_refl).
Qed.

(** X2. In a process started in debug mode and with a writer that accepts,
    [Debug] returns after writing the verbose line of its record: the cyan
    tag ["DEBUG"], the file and the line of its caller, the message. *)
Theorem Debug_enabled_writes getenv w format v stk :
  reachable getenv w -> faults w = [] ->
  (getenv "IIGSDEBUG" =? "1")%string = true ->
  writes_line (Debug format v stk) w
    (verbose_line (time_Format (clock w) layout) (CyanBold "DEBUG") ""
       (filepath_Base (fst (locate stk 0))) (snd (locate stk 0))
       (fmt_Sprintf format v)).
Proof.
  intros Hr Hf Hdm. pose proof (reachable_booted _ _ Hr) as Hb.
  rewrite Hdm in Hb.
  destruct (entry_line true w levelDebug 177 _ format v stk Hb Hf eq_refl)
    as (out & cs & Hh & E & Hc).
  exists out, cs. split; [exact Hh|]. split; [|exact Hc].
  unfold Debug, bind, gets.
  replace (debugMode w) with true by (symmetry; apply Hb). exact E.
Qed.

Lemma run_all_lines dm : forall l w,
  booted dm w -> faults w = [] ->
  (forall c, In c l -> call_record c <> None) ->
  exists w' evs,
    run_all l w = Normal tt w' /\
    events w' = (events w ++ evs)%list /\
    text_of (written evs) = lines dm (clock w) l /\
    bracketed false evs = true.
Proof.
  induction l as [|c rest IH]; intros w Hb Hf Hall.
  - exists w, []. simpl. rewrite app_nil_r. repeat split.
  - assert (Hc : exists r, call_record c = Some r /\
                           writes_line (run c) w (line_of dm r (clock w))).
    { specialize (Hall c (or_introl eq_refl)).
      destruct c as [f v stk|f v stk|f v stk|f v stk|f v stk|u cd r|wr|wr|ly];
        simpl in Hall; try contradiction; eexists; (split; [reflexivity|]).
      - exact (entry_line dm w levelInfo 183 _ f v stk Hb Hf eq_refl).
      - exact (entry_line dm w levelWarn 188 _ f v stk Hb Hf eq_refl).
      - exact (entry_line dm w levelError 193 _ f v stk Hb Hf eq_refl). }
    destruct Hc as (r & Hrec & Hline).
    pose proof Hline as (out & cs & _ & Eraw & _).
    destruct (writes_line_text _ _ _ Hline)
      as (w1 & evs1 & E1 & Hev1 & Ht1 & Hf1 & Hc1 & Hb1).
    destruct (IH w1 (Hb1 dm Hb) Hf1 (fun c' H => Hall c' (or_intror H)))
      as (w2 & evs2 & E2 & Hev2 & Ht2 & Hbr2).
    exists w2, (evs1 ++ evs2)%list.
    split; [|split; [|split]].
    + simpl. unfold bind. rewrite E1. exact E2.
    + rewrite Hev2, Hev1. now rewrite app_assoc.
    + rewrite written_app, text_of_app, Ht1, Ht2. simpl. rewrite Hrec, Hc1.
      reflexivity.
    + rewrite Eraw in E1. inversion E1; subst w1.
      rewrite events_logged in Hev1. apply app_inv_head in Hev1. subst evs1.
      simpl. clear - Hbr2.
      induction cs as [|c0 cs IHc]; simpl; [exact Hbr2|exact IHc].
Qed.

(** X3. Calls compose: in a world the process can reach and with a writer
    that accepts, any sequence of calls of [Info], [Warn] and [Error] returns,
    and the text written is the lines of the calls one after the other, in
    the order of the calls, each whole. *)
Theorem calls_write_lines_in_order getenv w l :
  reachable getenv w -> faults w = [] ->
  (forall c, In c l -> call_record c <> None) ->
  exists w' evs,
    run_all l w = Normal tt w' /\
    events w' = (events w ++ evs)%list /\
    text_of (written evs) =
      lines (getenv "IIGSDEBUG" =? "1")%string (clock w) l.
Proof.
  intros Hr Hf Hall. pose proof (reachable_booted _ _ Hr) as Hb.
  destruct (run_all_lines _ l w Hb Hf Hall) as (w' & evs & H1 & H2 & H3 & _).
  exists w', evs. repeat split; assumption.
Qed.

(** ** Edges of [mustLog] *)

(** X4. A level that passes the threshold but is none of the five makes
    [mustLog] panic with [errInvalidLogLevel]: it has taken the mutex and
    asked for the caller, it writes nothing, and it gives the mutex back. *)
Theorem mustLog_invalid_level w a ql level d msg args stk :
  nth_error (heap w) a = Some ql -> mu ql = false ->
  logLevel w <= level -> level < levelDebug \/ levelFatal < level ->
  mustLog (Addr a) level d msg args stk w =
    Panicked errInvalidLogLevel (logged a d [] (faults w) w) /\
  events (logged a d [] (faults w) w) =
    (events w ++ [EvLock a; EvCaller d; EvUnlock a])%list /\
  heap (logged a d [] (faults w) w) = heap w.
Proof.
  intros Hq Hmu Hge Hout.
  split; [|split; reflexivity].
  rewrite (mustLog_eq _ _ _ _ _ _ _ _ Hq Hmu Hge), mkRecord_eq.
  pose proof (getColorLevel_range level) as Hr.
  destruct (getColorLevel level) as [lv|e]; [lia|].
  destruct Hr as [-> _]. reflexivity.
Qed.

(** X5. A call that passes the threshold on a logger that cannot be used
    does nothing: on the nil logger [mustLog] panics with a nil dereference,
    and on a logger whose mutex is held it waits; in both cases no caller is
    looked up and nothing is written. *)
Theorem mustLog_unusable_logger w level d msg args stk :
  logLevel w <= level ->
  mustLog nil_ptr level d msg args stk w = Panicked errNilPointer w /\
  (forall a ql, nth_error (heap w) a = Some ql -> mu ql = true ->
                mustLog (Addr a) level d msg args stk w = Blocked w).
Proof.
  intros Hge. split.
  - unfold mustLog, bind, gets.
    destruct (Z.ltb_spec level (logLevel w)); [lia|reflexivity].
  - intros a ql Hq Hmu. unfold mustLog, bind, gets, mu_Lock, bind, deref.
    destruct (Z.ltb_spec level (logLevel w)); [lia|].
    rewrite Hq. destruct ql as [m out]. simpl in Hmu. subst m. reflexivity.
Qed.

Lemma exec_pure_error funcs out r clk ns : forall cs flt evs f e,
  render funcs r clk ns = Ret cs ->
  exec_pure funcs out r clk ns flt = (evs, f, Some e) -> e = errWrite.
Proof.
  induction ns as [|n rest IH]; intros cs flt evs f e Hr H; simpl in *.
  - discriminate.
  - destruct (chunk funcs r clk n) as [s|e0]; [|discriminate]. simpl in Hr.
    destruct (render funcs r clk rest) as [cs'|e0] eqn:Hr'; [|discriminate].
    destruct (next_fault flt) as [[k|] flt'].
    + now inversion H.
    + destruct (exec_pure funcs out r clk rest flt') as [[evs' f'] e'] eqn:He.
      inversion H; subst. eapply IH; eauto.
Qed.

Lemma exec_pure_at funcs out r clk ns : forall cs k p n rest,
  render funcs r clk ns = Ret cs -> nth_error cs k = Some p ->
  exec_pure funcs out r clk ns (repeat None k ++ Some n :: rest) =
  ((writes out (firstn k cs) ++ [EvWrite out p (Some n)])%list, rest,
   Some errWrite).
Proof.
  induction ns as [|nd nds IH]; intros cs k p n rest Hr Hk; simpl in *.
  - inversion Hr; subst. destruct k; discriminate.
  - destruct (chunk funcs r clk nd) as [s|e0]; [|discriminate]. simpl in Hr.
    destruct (render funcs r clk nds) as [cs'|e0] eqn:Hr'; [|discriminate].
    simpl in Hr. inversion Hr; subst cs. clear Hr.
    destruct k as [|k]; simpl in *.
    + now inversion Hk.
    + now rewrite (IH cs' k p n rest eq_refl Hk).
Qed.

Lemma written_writes_app out cs e :
  written (writes out cs ++ [e]) = (map (pair out) cs ++ accepted e)%list.
Proof.
  rewrite written_app, written_writes. simpl. now rewrite app_nil_r.
Qed.

(** X6. A record can come out in part.  In a world the process can reach,
    when the writer accepts the first [k] pieces of the record and refuses
    the next after [n] bytes, [mustLog] panics with the write error; by then
    the [k] pieces and those [n] bytes are out and no further piece is
    tried; the mutex is free again. *)
Theorem mustLog_partial_record getenv w level d msg args stk lv :
  reachable getenv w -> getColorLevel level = Ret lv ->
  let r := {| ID := ""; Level := lv; Message := fmt_Sprintf msg args;
              Filename := filepath_Base (fst (locate stk d));
              LineNo := snd (locate stk d) |} in
  exists out cs,
    heap w = [mkQLogger false out] /\
    render logFuncs r (clock w)
           (tree (selected (getenv "IIGSDEBUG" =? "1")%string)) = Ret cs /\
    forall k n rest p,
      faults w = (repeat None k ++ Some n :: rest)%list ->
      nth_error cs k = Some p ->
      let evs := (writes out (firstn k cs) ++ [EvWrite out p (Some n)])%list in
      mustLog (log w) level d msg args stk w =
        Panicked errWrite (logged 0 d evs rest w) /\
      attempted evs = map (pair out) (firstn (S k) cs) /\
      text_of (written evs) = String.concat "" (firstn k cs) ++ take n p.
Proof.
  intros Hr Hlv r. pose proof (reachable_booted _ _ Hr) as Hb.
  set (dm := (getenv "IIGSDEBUG" =? "1")%string) in *.
  assert (Hle : levelDebug <= level).
  { pose proof (getColorLevel_range level) as Hg. rewrite Hlv in Hg. lia. }
  destruct (mustLog_booted dm w level d msg args stk Hb Hle) as (out & Hh & E).
  rewrite mkRecord_eq, Hlv in E. fold r in E.
  destruct (render_selected dm r (clock w)) as (cs & Hcs & _).
  exists out, cs. split; [exact Hh|]. split; [exact Hcs|].
  intros k n rest p Hf Hk evs.
  split; [|split].
  - rewrite E, Hf, (exec_pure_at _ _ _ _ _ _ _ _ _ _ Hcs Hk). reflexivity.
  - unfold evs, attempted. rewrite flat_map_app.
    change (flat_map attempt (writes out (firstn k cs)))
      with (attempted (writes out (firstn k cs))).
    rewrite attempted_writes. simpl.
    clear - Hk. revert k Hk.
    induction cs as [|c cs IH]; intros [|k] Hk; simpl in *; try discriminate.
    + now inversion Hk.
    + now rewrite IH.
  - unfold evs. rewrite written_writes_app, text_of_app, text_of_pairs.
    simpl. now rewrite append_nil_r.
Qed.

(** X7. [Fatal] ends the process in one of two ways.  In a world the
    process can reach it either leaves with [os.Exit(-1)] or panics with the
    write error, and it panics, without reaching [os.Exit], as soon as one
    write of the record is refused: here, the first. *)
Theorem Fatal_exit_or_panic getenv w format v stk :
  reachable getenv w ->
  (exists w', Fatal format v stk w = Exited (-1) w' \/
              Fatal format v stk w = Panicked errWrite w') /\
  (forall n rest, faults w = Some n :: rest ->
     exists out w',
       heap w = [mkQLogger false out] /\
       Fatal format v stk w = Panicked errWrite w' /\
       events w' =
         (events w ++ [EvLock 0; EvCaller 2;
                       EvWrite out "[IIGService] " (Some n); EvUnlock 0])%list).
Proof.
  intros Hr. pose proof (reachable_booted _ _ Hr) as Hb.
  set (dm := (getenv "IIGSDEBUG" =? "1")%string) in *.
  assert (Hge : levelDebug <= levelFatal) by (unfold levelDebug, levelFatal; lia).
  destruct (mustLog_booted dm w levelFatal 2 format v (frames 198 stk) Hb Hge)
    as (out & Hh & E).
  rewrite mkRecord_eq in E.
  change (getColorLevel levelFatal) with (Ret (MagentaBold "FATAL")) in E.
  cbv iota beta in E.
  set (r := {| ID := ""; Level := MagentaBold "FATAL" |}) in E.
  destruct (render_selected dm r (clock w)) as (cs & Hcs & _).
  split.
  - unfold Fatal, bind, gets, os_Exit. rewrite E.
    destruct (exec_pure logFuncs out r (clock w) (tree (selected dm)) (faults w))
      as [[evs f] [e|]] eqn:He.
    + rewrite (exec_pure_error _ _ _ _ _ _ _ _ _ _ Hcs He). eauto.
    + eauto.
  - intros n rest Hf.
    assert (Hk : exists tl, cs = "[IIGService] " :: tl).
    { destruct dm; simpl in Hcs; inversion Hcs; eauto. }
    destruct Hk as (tl & ->).
    unfold Fatal, bind, gets, os_Exit. rewrite E, Hf.
    rewrite (exec_pure_at _ _ _ _ _ (_ :: tl) 0 _ n rest Hcs eq_refl).
    exists out. eexists. split; [exact Hh|]. split; reflexivity.
Qed.

(** ** [SetOutput] *)

(** X8. In a world the process can reach, [SetOutput] on the logger of the
    package returns after taking and giving back the mutex; it writes
    nothing, keeps the template, and leaves the color writer of its argument
    as the output, whatever the output was.  From then on a call of the
    level API writes its line there, all of it. *)
Theorem SetOutput_redirects getenv w wr :
  reachable getenv w ->
  exists w1,
    run (CSetOutput wr) w = Normal tt w1 /\
    reachable getenv w1 /\
    events w1 = (events w ++ [EvLock 0; EvUnlock 0])%list /\
    heap w1 = [mkQLogger false (NewColorWriter wr)] /\
    logRecordTemplate w1 = logRecordTemplate w /\
    faults w1 = faults w /\
    (faults w = [] ->
     forall format v stk, exists cs,
       Info format v stk w1 =
         Normal tt (logged 0 2 (writes (NewColorWriter wr) cs) [] w1) /\
       String.concat "" cs =
         line_of (getenv "IIGSDEBUG" =? "1")%string
                 (record_of (GreenBold "INFO ") format v stk) (clock w)).
Proof.
  intros Hr. pose proof (reachable_booted _ _ Hr) as Hb.
  assert (E : run (CSetOutput wr) w =
              Normal tt (set_events (events w ++ [EvLock 0; EvUnlock 0])
                           (set_heap [mkQLogger false (NewColorWriter wr)] w))).
  { simpl. unfold bind, gets. now rewrite (SetOutput_booted _ _ _ Hb). }
  eexists. split; [exact E|].
  assert (Hr1 : reachable getenv
                  (set_events (events w ++ [EvLock 0; EvUnlock 0])
                     (set_heap [mkQLogger false (NewColorWriter wr)] w)))
    by (eapply reach_call; eauto).
  split; [exact Hr1|]. repeat (split; [reflexivity|]).
  intros Hf format v stk.
  pose proof (reachable_booted _ _ Hr1) as Hb1.
  destruct (entry_line _ _ levelInfo 183 _ format v stk Hb1 Hf eq_refl)
    as (out & cs & Hh & E1 & Hc).
  simpl in Hh. inversion Hh; subst out.
  exists cs. split; [exact E1|exact Hc].
Qed.

(** ** The discipline of the mutex *)

Lemma bracketed_app a : forall held b,
  bracketed held a = true -> bracketed false b = true ->
  bracketed held (a ++ b) = true.
Proof.
  induction a as [|e a IH]; intros held b Ha Hb; simpl in *.
  - destruct held; [discriminate|exact Hb].
  - destruct e, held; simpl in *; try discriminate; now apply IH.
Qed.

Lemma exec_pure_all_writes funcs out r clk ns : forall flt evs f e,
  exec_pure funcs out r clk ns flt = (evs, f, e) ->
  forallb is_write evs = true.
Proof.
  induction ns as [|n rest IH]; intros flt evs f e H; simpl in *.
  - now inversion H.
  - destruct (chunk funcs r clk n) as [s|e0]; [|now inversion H].
    destruct (next_fault flt) as [[k|] flt']; [now inversion H|].
    destruct (exec_pure funcs out r clk rest flt') as [[evs' f'] e'] eqn:He.
    inversion H; subst. simpl. eapply IH; eauto.
Qed.

Lemma bracketed_writes evs : forall held rest,
  forallb is_write evs = true ->
  bracketed held (evs ++ rest) = bracketed held rest.
Proof.
  induction evs as [|e evs IH]; intros held rest H; simpl in *; [reflexivity|].
  apply andb_true_iff in H as [He Hs].
  destruct e; try discriminate. now apply IH.
Qed.

Lemma bracketed_logged a d evs :
  forallb is_write evs = true ->
  bracketed false (EvLock a :: EvCaller d :: evs ++ [EvUnlock a]) = true.
Proof. intros H. simpl. now rewrite bracketed_writes. Qed.

Lemma write_all_all_writes out ps : forall flt,
  forallb is_write (fst (write_all out ps flt)) = true.
Proof.
  induction ps as [|p rest IH]; intros flt; simpl; [reflexivity|].
  destruct (next_fault flt) as [r flt']. specialize (IH flt').
  now destruct (write_all out rest flt') as [evs f].
Qed.

Lemma mustLog_segment dm w level d msg args stk :
  booted dm w ->
  exists evs,
    events (world_of (mustLog (log w) level d msg args stk w))
      = (events w ++ evs)%list /\
    bracketed false evs = true.
Proof.
  intros Hb.
  destruct (Z.lt_ge_cases level levelDebug) as [Hlt|Hge].
  - assert (Hl : logLevel w = levelDebug) by apply Hb.
    rewrite mustLog_skip by (rewrite Hl; exact Hlt).
    exists []. simpl. now rewrite app_nil_r.
  - destruct (mustLog_booted dm w level d msg args stk Hb Hge) as (out & _ & E).
    rewrite E. clear E.
    destruct (mkRecord _ _ _ _ _) as [r|e].
    + destruct (exec_pure _ _ _ _ _ _) as [[evs f] e] eqn:He.
      pose proof (exec_pure_all_writes _ _ _ _ _ _ _ _ _ He) as Hw.
      exists (EvLock 0 :: EvCaller d :: evs ++ [EvUnlock 0])%list.
      split; [now destruct e|now apply bracketed_logged].
    + exists [EvLock 0; EvCaller d; EvUnlock 0]. split; reflexivity.
Qed.

Lemma run_segment dm c w :
  booted dm w ->
  exists evs,
    events (world_of (run c w)) = (events w ++ evs)%list /\
    bracketed false evs = true.
Proof.
  intros Hb.
  assert (Hnil : exists evs, events w = (events w ++ evs)%list /\
                             bracketed false evs = true)
    by (exists []; now rewrite app_nil_r).
  destruct c as [f v stk|f v stk|f v stk|f v stk|f v stk|u cd r|wr|wr|ly];
    simpl.
  - unfold Debug, bind, gets. destruct (debugMode w); [|exact Hnil].
    now apply (mustLog_segment dm).
  - unfold Info, bind, gets. now apply (mustLog_segment dm).
  - unfold Warn, bind, gets. now apply (mustLog_segment dm).
  - unfold Error, bind, gets. now apply (mustLog_segment dm).
  - destruct (mustLog_segment dm w levelFatal 2 f v (frames 198 stk) Hb)
      as (evs & He & Hbr).
    exists evs. split; [|exact Hbr].
    unfold Fatal, bind, gets, os_Exit.
    destruct (mustLog (log w) levelFatal 2 f v (frames 198 stk) w); exact He.
  - rewrite Trace_eq.
    pose proof (write_all_all_writes (NewColorWriter os_Stdout)
                  (trace_texts u cd r) (faults w)) as Hw.
    destruct (write_all _ _ _) as [evs fl]. simpl in *.
    exists evs. split; [reflexivity|].
    rewrite <- (app_nil_r evs). now rewrite bracketed_writes.
  - unfold bind, gets. rewrite (SetOutput_booted _ _ _ Hb).
    exists [EvLock 0; EvUnlock 0]. split; reflexivity.
  - unfold bind. rewrite getQLogger_again by apply Hb. exact Hnil.
  - exact Hnil.
Qed.

(** X9. The mutex is used in strict alternation.  In the trace of every
    world the process can reach, and in the trace at the end of any call made
    there, whether the call returns, panics or leaves the process, a lock is
    taken only when the mutex is free, every lock taken is given back before
    the next is taken, the caller is looked up only under the lock, and at
    the end the mutex is free. *)
Theorem mutex_discipline getenv w :
  reachable getenv w ->
  bracketed false (events w) = true /\
  forall c, bracketed false (events (world_of (run c w))) = true.
Proof.
  intros Hr.
  assert (H : bracketed false (events w) = true).
  { induction Hr as [clk flt w H|c w w' Hr IH H|t w _ IH|f w _ IH].
    - rewrite package_init_eq in H. inversion H; subst. reflexivity.
    - pose proof (reachable_booted _ _ Hr) as Hb.
      destruct (run_segment _ c w Hb) as (evs & He & Hbr).
      rewrite H in He. simpl in He. rewrite He. now apply bracketed_app.
    - exact IH.
    - exact IH. }
  split; [exact H|].
  intros c. pose proof (reachable_booted _ _ Hr) as Hb.
  destruct (run_segment _ c w Hb) as (evs & He & Hbr).
  rewrite He. now apply bracketed_app.
Qed.

(** ** [getQLogger] on any world *)

(** X10. [getQLogger] never panics: both format strings parse.  Whatever the
    world, it returns; when [once] is fresh it has put on the heap a new
    logger with the mutex free and the color writer of its argument as
    output, made [instance] point to it, returned that pointer and set the
    template chosen by [debugMode]; the loggers already there are
    untouched. *)
Theorem getQLogger_never_panics w wr :
  exists p w',
    getQLogger wr w = Normal p w' /\ once w' = true /\ instance w' = p /\
    (once w = false ->
     p = Addr (length (heap w)) /\
     heap w' = (heap w ++ [mkQLogger false (NewColorWriter wr)])%list /\
     logRecordTemplate w' = Some (selected (debugMode w)) /\
     events w' = events w).
Proof.
  destruct w as [sq ins on dm ll t1 t2 lg hp ck flt evs].
  destruct on.
  - exists ins. eexists. rewrite getQLogger_again by reflexivity.
    split; [reflexivity|]. split; [reflexivity|]. split; [reflexivity|].
    intros H; discriminate H.
  - destruct dm.
    + eexists. eexists. split; [reflexivity|]. repeat split.
    + eexists. eexists. split; [reflexivity|]. repeat split.
Qed.

(** ** Tags and modes *)

(** X11. The tag tells the level: two levels with the same tag are the
    same level. *)
Theorem level_tag_tells_level a b t :
  getLevelTag a = Ret t -> getLevelTag b = Ret t -> a = b.
Proof.
  unfold getLevelTag, levelDebug, levelInfo, levelWarn, levelError, levelFatal.
  intros Ha Hb.
  destruct (Z.eqb_spec a 0); [|destruct (Z.eqb_spec a 1);
    [|destruct (Z.eqb_spec a 2); [|destruct (Z.eqb_spec a 3);
    [|destruct (Z.eqb_spec a 4); [|discriminate]]]]];
  (destruct (Z.eqb_spec b 0); [|destruct (Z.eqb_spec b 1);
    [|destruct (Z.eqb_spec b 2); [|destruct (Z.eqb_spec b 3);
    [|destruct (Z.eqb_spec b 4); [|discriminate]]]]]);
  subst; try reflexivity; rewrite <- Ha in Hb; discriminate.
Qed.

(** X12. The debug switch sets two things together, once.  In every world
    the process can reach, [debugMode] is what the environment said at the
    start, the template in force is the verbose one exactly when it is set,
    and [Debug] leaves the world untouched exactly when the concise template
    is in force. *)
Theorem debug_switch getenv w :
  reachable getenv w ->
  debugMode w = (getenv "IIGSDEBUG" =? "1")%string /\
  (debugMode w = true <-> logRecordTemplate w = Some verbose_template) /\
  (forall format v stk,
     Debug format v stk w = Normal tt w <->
     logRecordTemplate w = Some concise_template).
Proof.
  intros Hr. pose proof (reachable_booted _ _ Hr) as Hb.
  destruct Hb as (_ & _ & _ & Hl & Hd & Ht & _).
  split; [exact Hd|]. rewrite Ht, Hd.
  destruct (getenv "IIGSDEBUG" =? "1")%string; simpl.
  - split; [split; [reflexivity|reflexivity]|].
    intros format v stk. unfold Debug, bind, gets. rewrite Hd.
    split; [|discriminate].
    intros H. apply mustLog_not_silent in H; [easy|]. rewrite Hl. reflexivity.
  - split; [split; discriminate|].
    intros format v stk. unfold Debug, bind, gets. rewrite Hd.
    split; reflexivity.
Qed.

(** ** A threshold above the entry points *)

(** X13. Were the threshold above the level of an entry point, the entry
    point would do nothing at all: [Info], [Warn] and [Error] return with the
    world untouched, and so does [Debug] even in debug mode.  [Fatal] still
    ends the process with [os.Exit(-1)], having written no record. *)
Theorem entry_points_below_threshold w format v stk :
  (levelDebug < logLevel w -> Debug format v stk w = Normal tt w) /\
  (levelInfo < logLevel w -> Info format v stk w = Normal tt w) /\
  (levelWarn < logLevel w -> Warn format v stk w = Normal tt w) /\
  (levelError < logLevel w -> Error format v stk w = Normal tt w) /\
  (levelFatal < logLevel w -> Fatal format v stk w = Exited (-1) w).
Proof.
  repeat split; intros H.
  - unfold Debug, bind, gets. destruct (debugMode w); [|reflexivity].
    now apply mustLog_skip.
  - unfold Info, bind, gets. now apply mustLog_skip.
  - unfold Warn, bind, gets. now apply mustLog_skip.
  - unfold Error, bind, gets. now apply mustLog_skip.
  - unfold Fatal, bind, gets. now rewrite mustLog_skip.
Qed.

(** ** The file name of a record *)

Lemma after_last_slash_nonempty s : forall acc,
  acc <> "" -> after_last_slash acc s <> "" \/ has_slash s = true.
Proof.
  induction s as [|c r IH]; intros acc H; simpl; [now left|].
  destruct (is_slash c); [now right|].
  simpl. apply IH. unfold snoc. destruct acc; [contradiction|discriminate].
Qed.

Lemma filepath_Base_shape path :
  filepath_Base path = "/" \/
  (filepath_Base path <> "" /\ has_slash (filepath_Base path) = false).
Proof.
  unfold filepath_Base.
  destruct (path =? "")%string; [right; split; [discriminate|reflexivity]|].
  destruct (String.eqb_spec (after_last_slash "" (strip_trailing path)) "")
    as [E|N]; [now left|right].
  split; [exact N|]. now apply has_slash_after.
Qed.

(** X14. The [Filename] of a record is never empty and is a base name
    already: taking [filepath.Base] of it again changes nothing.  So the
    file of the verbose line is one path element, whatever
    [runtime.Caller] reported. *)
Theorem record_filename_is_base_name level msg args file line r :
  mkRecord level msg args file line = Ret r ->
  Filename r <> "" /\ filepath_Base (Filename r) = Filename r.
Proof.
  intros H. rewrite mkRecord_eq in H.
  destruct (getColorLevel level); inversion H; subst; simpl.
  destruct (filepath_Base_shape file) as [E|[N S]].
  - rewrite E. split; [discriminate|reflexivity].
  - split; [exact N|]. now apply filepath_Base_plain.
Qed.

End Further.

(** * The claims at work

    Each statement with a premise is applied to a concrete process, with the
    instances of module [Reference]. *)

Import Reference.

Lemma Info_roundtrip_witness :
  (no_env "IIGSDEBUG" =? "1")%string = false /\
  sprintf "user %s logged in" [VString "alice"] = "user alice logged in" /\
  format t0 "2006/01/02 15:04:05" = "2024/01/02 03:04:05" /\
  exists w1,
    @Info plain go "user %s logged in" [VString "alice"]
          [("/home/u/main.go", 12)] (concise_world []) = Normal tt w1 /\
    text_of (written (events w1)) =
      "[IIGService] 2024/01/02 03:04:05 INFO  ▶  user alice logged in" ++ nl.
Proof.
  split; [reflexivity|]. split; [reflexivity|]. split; [reflexivity|].
  destruct (@Info_roundtrip plain go no_env [("/home/u/main.go", 12)]
              eq_refl eq_refl eq_refl)
    as (w0 & w1 & H0 & _ & _ & H1 & _ & _ & H2 & _).
  inversion H0; subst w0.
  exists w1. split; [exact H1|]. apply H2. reflexivity.
Defined.

Lemma mustLog_below_threshold_witness :
  levelInfo < logLevel (set_logLevel levelWarn (concise_world [])) /\
  @mustLog plain go (Addr 0) levelInfo 2 "quiet" [] []
           (set_logLevel levelWarn (concise_world []))
  = Normal tt (set_logLevel levelWarn (concise_world [])).
Proof.
  split; [reflexivity|].
  apply (@mustLog_below_threshold plain go). reflexivity.
Defined.

Lemma reachable_concise_world flt : @reachable plain go no_env (concise_world flt).
Proof. apply (reach_init no_env t0 flt). reflexivity. Qed.

Lemma reachable_debug_world flt : @reachable plain go debug_env (debug_world flt).
Proof. apply (reach_init debug_env t0 flt). reflexivity. Qed.

Lemma getQLogger_singleton_witness :
  once (concise_world []) = true /\
  (no_env "IIGSDEBUG" =? "1")%string = false /\
  @reachable plain go no_env (concise_world []) /\
  @getQLogger plain (Sink 7) (concise_world [])
    = Normal (Addr 0) (concise_world []) /\
  @mustLog plain go (Addr 0) levelWarn 2 "w" [] [("/a/b.go", 3)] (concise_world [])
  = @mustLog plain go (Addr 0) levelWarn 2 "w" [] [] (concise_world []).
Proof.
  split; [reflexivity|]. split; [reflexivity|].
  split; [apply reachable_concise_world|].
  destruct (@getQLogger_singleton plain go no_env t0 [] os_Stdout)
    as (_ & _ & H3 & H4).
  split.
  - apply (H3 (concise_world []) (reachable_concise_world [])).
  - apply (H4 eq_refl (concise_world []) (reachable_concise_world [])
              levelWarn 2%nat "w" [] [("/a/b.go", 3)]).
Defined.

Lemma Debug_gated_witness :
  debugMode (concise_world []) = false /\
  @Debug plain go "d" [] [] (concise_world []) = Normal tt (concise_world []).
Proof.
  split; [reflexivity|].
  apply (@Debug_gated plain go "d" [] [] (concise_world [])). reflexivity.
Defined.

Lemma Fatal_writes_then_exits_witness :
  @reachable plain go no_env (concise_world []) /\
  faults (concise_world []) = [] /\
  exists w', @Fatal plain go "boom" [] [] (concise_world []) = Exited (-1) w'.
Proof.
  split; [apply reachable_concise_world|]. split; [reflexivity|].
  apply (@Fatal_writes_then_exits plain go no_env (concise_world []) "boom" [] []
           (reachable_concise_world [])).
  reflexivity.
Defined.

Lemma Trace_independent_witness :
  faults (set_logLevel 5 (concise_world [])) = [] /\
  exists evs,
    @Trace plain go "http://x" 200 "ok" (set_logLevel 5 (concise_world []))
      = Normal tt (set_events evs (set_logLevel 5 (concise_world []))) /\
    written evs =
      map (pair (ColorWriter os_Stdout))
        [ "=================================" ++ nl;
          "   URL: http://x" ++ nl; "  CODE: 200" ++ nl; "RESULT: ok" ++ nl ].
Proof.
  split; [reflexivity|].
  destruct (@Trace_independent plain go "http://x" 200 "ok"
              (set_logLevel 5 (concise_world [])))
    as (evs & H1 & _ & _ & H2).
  exists evs. split; [exact H1|]. apply H2. reflexivity.
Defined.

Lemma mustLog_failure_panics_witness :
  nth_error (heap (concise_world [Some 0%nat])) 0
    = Some (mkQLogger false (ColorWriter os_Stdout)) /\
  mu (mkQLogger false (ColorWriter os_Stdout)) = false /\
  logLevel (concise_world [Some 0%nat]) <= levelError /\
  exists w',
    @mustLog plain go (Addr 0) levelError 2 "disk" [] []
             (concise_world [Some 0%nat]) = Panicked errWrite w' /\
    heap w' = heap (concise_world [Some 0%nat]).
Proof.
  split; [reflexivity|]. split; [reflexivity|]. split; [discriminate|].
  destruct (@mustLog_failure_panics plain go (concise_world [Some 0%nat]) 0
              (mkQLogger false (ColorWriter os_Stdout)) levelError 2 "disk" [] []
              eq_refl eq_refl) as (_ & H).
  destruct (H _ errWrite _ ltac:(discriminate) eq_refl eq_refl)
    as (w' & H1 & _ & H2).
  exists w'. split; assumption.
Defined.

Lemma caller_fallback_witness :
  nth_error (@nil Frame) 2 = None /\
  nth_error [("/home/u/app/main.go", 12)] 0 = Some ("/home/u/app/main.go", 12) /\
  caller_location [] 2 (debug_world []) =
    Normal ("???", 0) (emit (EvCaller 2) (debug_world [])) /\
  filepath_Base "/home/u/app/main.go" = "main.go".
Proof.
  split; [reflexivity|]. split; [reflexivity|]. split.
  - destruct (@caller_fallback plain go [] 2 (debug_world [])) as (H & _).
    apply (H eq_refl).
  - destruct (@caller_fallback plain go [("/home/u/app/main.go", 12)] 0
                (debug_world [])) as (_ & H).
    destruct (H _ _ eq_refl) as (_ & _ & H3 & _).
    apply (H3 "/home/u/app" "main.go"); [reflexivity|discriminate|reflexivity].
Defined.

Lemma threshold_never_filters_witness :
  @reachable plain go no_env (concise_world []) /\
  logLevel (concise_world []) = levelDebug /\
  @run plain go (CInfo "i" [] []) (concise_world [])
    <> Normal tt (concise_world []).
Proof.
  split; [apply reachable_concise_world|].
  destruct (@threshold_never_filters plain go no_env (concise_world [])
              (reachable_concise_world [])) as (_ & _ & H1 & _ & H2).
  split; [exact H1|].
  intros H. apply (H2 (CInfo "i" [] []) eq_refl) in H.
  destruct H as [H _]. discriminate.
Defined.

Lemma level_calls_write_line_witness :
  @reachable plain go no_env (concise_world []) /\
  faults (concise_world []) = [] /\
  @writes_line (@Warn plain go "low disk: %d" [VInt 3] [("/srv/app/disk.go", 40)])
     (concise_world [])
     ("[IIGService] 2024/01/02 03:04:05 WARN  ▶  low disk: 3" ++ nl).
Proof.
  split; [apply reachable_concise_world|]. split; [reflexivity|].
  destruct (@level_calls_write_line plain go no_env (concise_world [])
              "low disk: %d" [VInt 3] [("/srv/app/disk.go", 40)]
              (reachable_concise_world []) eq_refl) as (_ & H & _).
  exact H.
Defined.

Lemma Debug_enabled_writes_witness :
  @reachable plain go debug_env (debug_world []) /\
  faults (debug_world []) = [] /\
  (debug_env "IIGSDEBUG" =? "1")%string = true /\
  @writes_line (@Debug plain go "x=%d" [VInt 7] [("/srv/app/main.go", 9)])
     (debug_world [])
     ("[IIGService] 2024/01/02 03:04:05 DEBUG ▶  main.go:9 x=7" ++ nl).
Proof.
  split; [apply reachable_debug_world|]. split; [reflexivity|].
  split; [reflexivity|].
  exact (@Debug_enabled_writes plain go debug_env (debug_world [])
           "x=%d" [VInt 7] [("/srv/app/main.go", 9)]
           (reachable_debug_world []) eq_refl eq_refl).
Defined.

Lemma calls_write_lines_in_order_witness :
  @reachable plain go no_env (concise_world []) /\
  faults (concise_world []) = [] /\
  exists w' evs,
    @run_all plain go [CInfo "a" [] []; CError "b" [] []] (concise_world [])
      = Normal tt w' /\
    events w' = evs /\
    text_of (written evs) =
      ("[IIGService] 2024/01/02 03:04:05 INFO  ▶  a" ++ nl)
      ++ ("[IIGService] 2024/01/02 03:04:05 ERROR ▶  b" ++ nl).
Proof.
  split; [apply reachable_concise_world|]. split; [reflexivity|].
  destruct (@calls_write_lines_in_order plain go no_env (concise_world [])
              [CInfo "a" [] []; CError "b" [] []]
              (reachable_concise_world []) eq_refl)
    as (w' & evs & H1 & H2 & H3).
  - intros c [<-|[<-|[]]]; discriminate.
  - exists w', evs. split; [exact H1|]. split; [exact H2|exact H3].
Defined.

Lemma mustLog_invalid_level_witness :
  nth_error (heap (concise_world [])) 0
    = Some (mkQLogger false (ColorWriter os_Stdout)) /\
  logLevel (concise_world []) <= 7 /\ levelFatal < 7 /\
  @mustLog plain go (Addr 0) 7 2 "m" [] [] (concise_world []) =
    Panicked errInvalidLogLevel
      (set_events [EvLock 0; EvCaller 2; EvUnlock 0] (concise_world [])).
Proof.
  split; [reflexivity|]. split; [discriminate|]. split; [reflexivity|].
  destruct (@mustLog_invalid_level plain go (concise_world []) 0
              (mkQLogger false (ColorWriter os_Stdout)) 7 2 "m" [] []
              eq_refl eq_refl ltac:(discriminate) (or_intror eq_refl))
    as (H & _).
  exact H.
Defined.

Lemma mustLog_unusable_logger_witness :
  logLevel (set_heap [mkQLogger true os_Stdout] (concise_world [])) <= levelInfo /\
  @mustLog plain go (Addr 0) levelInfo 2 "m" [] []
           (set_heap [mkQLogger true os_Stdout] (concise_world []))
  = Blocked (set_heap [mkQLogger true os_Stdout] (concise_world [])).
Proof.
  split; [discriminate|].
  destruct (@mustLog_unusable_logger plain go
              (set_heap [mkQLogger true os_Stdout] (concise_world []))
              levelInfo 2 "m" [] [] ltac:(discriminate)) as (_ & H).
  exact (H 0%nat (mkQLogger true os_Stdout) eq_refl eq_refl).
Defined.

Lemma mustLog_partial_record_witness :
  @reachable plain go no_env (concise_world [None; Some 2%nat]) /\
  exists w',
    @mustLog plain go (Addr 0) levelInfo 2 "m" [] []
             (concise_world [None; Some 2%nat]) = Panicked errWrite w' /\
    text_of (written (events w')) = "[IIGService] 20".
Proof.
  split; [apply reachable_concise_world|].
  destruct (@mustLog_partial_record plain go no_env
              (concise_world [None; Some 2%nat]) levelInfo 2 "m" [] [] "INFO "
              (reachable_concise_world _) eq_refl)
    as (out & cs & Hh & Hcs & H).
  inversion Hh; subst out. inversion Hcs; subst cs.
  destruct (H 1%nat 2%nat [] _ eq_refl eq_refl) as (E & _ & _).
  eexists. split; [exact E|reflexivity].
Defined.

Lemma Fatal_exit_or_panic_witness :
  @reachable plain go no_env (concise_world [Some 0%nat]) /\
  exists w',
    @Fatal plain go "boom" [] [] (concise_world [Some 0%nat])
      = Panicked errWrite w'.
Proof.
  split; [apply reachable_concise_world|].
  destruct (@Fatal_exit_or_panic plain go no_env (concise_world [Some 0%nat])
              "boom" [] [] (reachable_concise_world _)) as (_ & H).
  destruct (H 0%nat [] eq_refl) as (out & w' & _ & E & _).
  exists w'. exact E.
Defined.

Lemma SetOutput_redirects_witness :
  @reachable plain go no_env (concise_world []) /\
  exists w1,
    @run plain go (CSetOutput (Sink 3)) (concise_world []) = Normal tt w1 /\
    heap w1 = [mkQLogger false (ColorWriter (Sink 3))] /\
    events w1 = [EvLock 0; EvUnlock 0].
Proof.
  split; [apply reachable_concise_world|].
  destruct (@SetOutput_redirects plain go no_env (concise_world []) (Sink 3)
              (reachable_concise_world [])) as (w1 & E & _ & He & Hh & _).
  exists w1. split; [exact E|]. split; [exact Hh|exact He].
Defined.

Lemma mutex_discipline_witness :
  @reachable plain go no_env (concise_world [Some 1%nat]) /\
  bracketed false
    (events (world_of (@run plain go (CFatal "f" [] [])
                            (concise_world [Some 1%nat])))) = true.
Proof.
  split; [apply reachable_concise_world|].
  destruct (@mutex_discipline plain go no_env (concise_world [Some 1%nat])
              (reachable_concise_world _)) as (_ & H).
  exact (H (CFatal "f" [] [])).
Defined.

Lemma getQLogger_never_panics_witness :
  once (zero_world debug_env t0 []) = false /\
  exists w',
    @getQLogger plain (Sink 1) (zero_world debug_env t0 []) = Normal (Addr 0) w' /\
    heap w' = [mkQLogger false (ColorWriter (Sink 1))] /\
    logRecordTemplate w' = Some verbose_template.
Proof.
  split; [reflexivity|].
  destruct (@getQLogger_never_panics plain (zero_world debug_env t0 []) (Sink 1))
    as (p & w' & E & _ & _ & H).
  destruct (H eq_refl) as (-> & Hh & Ht & _).
  exists w'. split; [exact E|]. split; [exact Hh|exact Ht].
Defined.

Lemma level_tag_tells_level_witness :
  @getLevelTag levelWarn = Ret "WARN " /\ levelWarn = 2.
Proof.
  split; [reflexivity|].
  exact (level_tag_tells_level levelWarn 2 "WARN " eq_refl eq_refl).
Defined.

Lemma debug_switch_witness :
  @reachable plain go debug_env (debug_world []) /\
  debugMode (debug_world []) = true /\
  logRecordTemplate (debug_world []) = Some verbose_template.
Proof.
  split; [apply reachable_debug_world|].
  destruct (@debug_switch plain go debug_env (debug_world [])
              (reachable_debug_world [])) as (H1 & H2 & _).
  split; [exact H1|]. apply H2. exact H1.
Defined.

Lemma entry_points_below_threshold_witness :
  levelFatal < logLevel (set_logLevel 5 (concise_world [])) /\
  @Fatal plain go "f" [] [] (set_logLevel 5 (concise_world []))
    = Exited (-1) (set_logLevel 5 (concise_world [])).
Proof.
  split; [reflexivity|].
  destruct (@entry_points_below_threshold plain go
              (set_logLevel 5 (concise_world [])) "f" [] [])
    as (_ & _ & _ & _ & H).
  apply H. reflexivity.
Defined.

Lemma record_filename_is_base_name_witness :
  @mkRecord plain go levelInfo "m" [] "/srv/app/" 1 =
    Ret {| ID := ""; Level := "INFO "; Message := "m";
           Filename := "app"; LineNo := 1 |} /\
  filepath_Base "app" = "app".
Proof.
  split; [reflexivity|].
  destruct (@record_filename_is_base_name plain go levelInfo "m" [] "/srv/app/" 1
              _ eq_refl) as (_ & H).
  exact H.
Defined.
